(** * Client-side interaction layer of the portfolio page ([scripts.js])

    A shallow embedding of the listeners that [scripts.js] registers on
    [DOMContentLoaded], and the properties of the page's behaviour that
    follow from them.

    Conventions of the embedding.
    - DOM elements are handles ([node]); everything the script mutates
      lives in one shared store indexed by handle, so two names for the
      same element see the same [classList].
    - Pixel quantities ([scrollY], [offsetTop], [clientY], ...) are
      integers ([Z]).
    - A [NodeList] is a [list node]; [forEach] is a left fold.
    - What the browser computes and the script only reads (selector
      matching beyond [#id], the event path, layout) is data of the page
      or of the state, quantified over in the theorems.
    - [console.log] calls have no effect on the modelled state and are
      left out, as are the particles and the injected keyframes, which
      only append fresh nodes at load time.
    - The load handler stops where it throws.  [createParticles] (line
      211) appends to the [.hero] element without testing it for [null]:
      on a page without one the call throws and the lines after it
      (213-277) never run, so the two debounced scroll listeners and the
      [keydown], [touchstart] and [touchmove] listeners are registered
      only on a page that has a [.hero] element ([loaded]).  The listeners
      registered before line 211 are there on every page.
    - What the handler does to the document while it runs ([body] gets
      the class [loading], the subtitle is emptied, the first [typeWriter]
      timer is set) is part of the state a run starts from.
    - A JavaScript string indexed by the script (the subtitle's text) is
      the list of its UTF-16 code units.
    - The document is in no-quirks mode: ids are compared exactly. *)

From Stdlib Require Import ZArith String Ascii List Lia Bool.
From stdpp Require Import base decidable relations list gmap sets strings.
Import ListNotations.

Set Warnings "-clear-no-such-hyp".

Local Open Scope string_scope.
Local Open Scope Z_scope.

(** ** The document *)

Definition node := nat.

(** [element.classList]: a set of class names. *)
Abbreviation ClassList := (gset string).

(** Exceptions the script can let escape from a listener. *)
Inductive Error :=
| SyntaxError   (* document.querySelector on an invalid selector *)
| TypeError.    (* property access on null *)

(** Result of [document.querySelector]. *)
Inductive QueryResult :=
| QFound (n : node)
| QNull
| QThrows.

(** The static part of the page: markup, tree structure, and the node lists
    the script captures once at load time. *)
Record Page := mkPage {
  elements : list node;                  (* every element, in tree order *)
  idAttr : node -> option string;        (* getAttribute('id') *)
  hrefAttr : node -> option string;      (* getAttribute('href') *)
  path : node -> list node;              (* a click's propagation path:
                                            the target, then its ancestors *)
  complexQuery : string -> QueryResult;  (* querySelector on selectors other
                                            than a plain #identifier *)
  navLinks : list node;                  (* querySelectorAll('.nav-links a') *)
  sections : list node;                  (* querySelectorAll('section') *)
  projectCards : list node;              (* querySelectorAll('.project-card') *)
  projectLinks : list node;              (* querySelectorAll('.project-link') *)
  resumeToggleBtn : option node;         (* getElementById('resume-toggle-btn') *)
  resumeContent : option node;           (* getElementById('resume-content') *)
  mobileMenuBtn : option node;           (* querySelector('.mobile-menu-btn') *)
  mobileNavLinks : option node;          (* querySelector('.nav-links') *)
  menuAnchors : list node;               (* mobileNavLinks.querySelectorAll('a') *)
  header : option node;                  (* querySelector('header') *)
  heroSubtitle : option node;            (* querySelector('.hero-subtitle') *)
  text : list string;                    (* heroSubtitle.textContent at load,
                                            one string per UTF-16 code unit:
                                            text.length is the length of the
                                            list, text.charAt(i) its i-th
                                            element *)
  hero : option node                     (* querySelector('.hero') *)
}.

(** [a.contains(b)]: [a] is [b] or one of its ancestors. *)
Definition contains (p : Page) (a b : node) : bool :=
  bool_decide (a ∈ path p b).

(** *** Selectors

    [document.querySelector(sel)] parses [sel] as a CSS selector and throws
    a [SyntaxError] when it is not one.  Three classes of selector strings
    are told apart: [#] followed by a plain identifier (an id selector);
    strings that are certainly no selector ([#] alone, or [#] followed by a
    digit, which CSS does not accept as the start of an identifier); and
    everything else, answered by the page's [complexQuery]. *)

Definition isDigit (c : ascii) : bool :=
  let n := nat_of_ascii c in (48 <=? n)%nat && (n <=? 57)%nat.

Definition isLetter (c : ascii) : bool :=
  let n := nat_of_ascii c in
  ((65 <=? n)%nat && (n <=? 90)%nat) || ((97 <=? n)%nat && (n <=? 122)%nat).

Definition isNameStart (c : ascii) : bool :=
  isLetter c || Ascii.eqb c "_".

Definition isNameChar (c : ascii) : bool :=
  isLetter c || isDigit c || Ascii.eqb c "_" || Ascii.eqb c "-".

Inductive SelectorKind :=
| SelId (ident : string)
| SelInvalid
| SelOther.

Definition classifySelector (sel : string) : SelectorKind :=
  match sel with
  | String "#" EmptyString => SelInvalid
  | String "#" (String c rest as ident) =>
      if isDigit c then SelInvalid
      else if isNameStart c && forallb isNameChar (list_ascii_of_string rest)
           then SelId ident
           else SelOther
  | _ => SelOther
  end.

(** A fragment that can be used verbatim after [#] as an id selector. *)
Definition plainIdent (ident : string) : Prop :=
  classifySelector (String "#" ident) = SelId ident.

Definition hasId (p : Page) (ident : string) (n : node) : bool :=
  bool_decide (idAttr p n = Some ident).

Definition querySelector (p : Page) (sel : string) : QueryResult :=
  match classifySelector sel with
  | SelId ident =>
      match List.find (hasId p ident) (elements p) with
      | Some n => QFound n
      | None => QNull
      end
  | SelInvalid => QThrows
  | SelOther => complexQuery p sel
  end.

(** ** The mutable state *)

(** Layout and viewport, owned by the browser and read live. *)
Record View := mkView {
  scrollY : Z;                     (* window.scrollY *)
  innerHeight : Z;                 (* window.innerHeight *)
  bodyOffsetHeight : Z;            (* document.body.offsetHeight *)
  offsetTop : node -> Z;           (* element.offsetTop *)
  offsetHeight : node -> Z         (* element.offsetHeight *)
}.

(** Pending timers of [setTimeout]. *)
Record Timer (T : Type) := mkTimer {
  tid : nat;
  due : Z;
  task : T
}.
Arguments mkTimer {T}.
Arguments tid {T}.
Arguments due {T}.
Arguments task {T}.

Record Timers (T : Type) := mkTimers {
  table : list (Timer T);          (* pending, in creation order *)
  nextId : nat
}.
Arguments mkTimers {T}.
Arguments table {T}.
Arguments nextId {T}.

(** The callbacks the page hands to [setTimeout]. *)
Inductive Task :=
| LaterNav        (* later of debounce(updateActiveNavLink, 10) *)
| LaterHeader     (* later of debounce(updateHeader, 10) *)
| TypeWriter.     (* typeWriter *)

(** The two functions driven by scroll events. *)
Inductive ScrollFn := UpdateActiveNavLink | UpdateHeader.

Record State := mkState {
  classes : node -> ClassList;         (* element.classList *)
  style : node -> string -> string;    (* element.style[property] *)
  textContent : node -> string;        (* element.textContent *)
  view : View;
  touchStartY : Z;                     (* let touchStartY *)
  typed : nat;                         (* let i, of the typing effect *)
  scrollRequests : list Z;             (* window.scrollTo({top, behavior}) calls *)
  uncaught : list Error;               (* exceptions that escaped a listener *)
  now : Z;                             (* current time, ms *)
  timers : Timers Task;
  navTimeout : option nat;             (* let timeout, first debounce closure *)
  headerTimeout : option nat;          (* let timeout, second debounce closure *)
  invocations : list (Z * ScrollFn)    (* ghost: calls of the scroll functions *)
}.

Definition setClasses (c : node -> ClassList) (s : State) : State :=
  mkState c (style s) (textContent s) (view s) (touchStartY s) (typed s)
    (scrollRequests s) (uncaught s) (now s) (timers s) (navTimeout s)
    (headerTimeout s) (invocations s).

Definition setStyle (st : node -> string -> string) (s : State) : State :=
  mkState (classes s) st (textContent s) (view s) (touchStartY s) (typed s)
    (scrollRequests s) (uncaught s) (now s) (timers s) (navTimeout s)
    (headerTimeout s) (invocations s).

Definition setTextContent (tx : node -> string) (s : State) : State :=
  mkState (classes s) (style s) tx (view s) (touchStartY s) (typed s)
    (scrollRequests s) (uncaught s) (now s) (timers s) (navTimeout s)
    (headerTimeout s) (invocations s).

Definition setView (v : View) (s : State) : State :=
  mkState (classes s) (style s) (textContent s) v (touchStartY s) (typed s)
    (scrollRequests s) (uncaught s) (now s) (timers s) (navTimeout s)
    (headerTimeout s) (invocations s).

Definition setTouchStartY (y : Z) (s : State) : State :=
  mkState (classes s) (style s) (textContent s) (view s) y (typed s)
    (scrollRequests s) (uncaught s) (now s) (timers s) (navTimeout s)
    (headerTimeout s) (invocations s).

Definition setTyped (i : nat) (s : State) : State :=
  mkState (classes s) (style s) (textContent s) (view s) (touchStartY s) i
    (scrollRequests s) (uncaught s) (now s) (timers s) (navTimeout s)
    (headerTimeout s) (invocations s).

Definition scrollTo (top : Z) (s : State) : State :=
  mkState (classes s) (style s) (textContent s) (view s) (touchStartY s) (typed s)
    (scrollRequests s ++ [top]) (uncaught s) (now s) (timers s) (navTimeout s)
    (headerTimeout s) (invocations s).

Definition throw (e : Error) (s : State) : State :=
  mkState (classes s) (style s) (textContent s) (view s) (touchStartY s) (typed s)
    (scrollRequests s) (uncaught s ++ [e]) (now s) (timers s) (navTimeout s)
    (headerTimeout s) (invocations s).

Definition setNow (t : Z) (s : State) : State :=
  mkState (classes s) (style s) (textContent s) (view s) (touchStartY s) (typed s)
    (scrollRequests s) (uncaught s) t (timers s) (navTimeout s)
    (headerTimeout s) (invocations s).

Definition setTimers (tm : Timers Task) (s : State) : State :=
  mkState (classes s) (style s) (textContent s) (view s) (touchStartY s) (typed s)
    (scrollRequests s) (uncaught s) (now s) tm (navTimeout s)
    (headerTimeout s) (invocations s).

Definition setNavTimeout (t : option nat) (s : State) : State :=
  mkState (classes s) (style s) (textContent s) (view s) (touchStartY s) (typed s)
    (scrollRequests s) (uncaught s) (now s) (timers s) t
    (headerTimeout s) (invocations s).

Definition setHeaderTimeout (t : option nat) (s : State) : State :=
  mkState (classes s) (style s) (textContent s) (view s) (touchStartY s) (typed s)
    (scrollRequests s) (uncaught s) (now s) (timers s) (navTimeout s)
    t (invocations s).

Definition recordCall (f : ScrollFn) (s : State) : State :=
  mkState (classes s) (style s) (textContent s) (view s) (touchStartY s) (typed s)
    (scrollRequests s) (uncaught s) (now s) (timers s) (navTimeout s)
    (headerTimeout s) (invocations s ++ [(now s, f)]).

(** *** [classList] operations on the shared store *)

Definition classAdd (n : node) (c : string) (cls : node -> ClassList)
  : node -> ClassList :=
  fun m => if decide (m = n) then cls m ∪ {[ c ]} else cls m.

Definition classRemove (n : node) (c : string) (cls : node -> ClassList)
  : node -> ClassList :=
  fun m => if decide (m = n) then cls m ∖ {[ c ]} else cls m.

Definition classToggle (n : node) (c : string) (cls : node -> ClassList)
  : node -> ClassList :=
  if decide (c ∈ cls n) then classRemove n c cls else classAdd n c cls.

Definition hasClass (s : State) (n : node) (c : string) : bool :=
  bool_decide (c ∈ classes s n).

(** The nav link's "active" state. *)
Definition isActive (s : State) (link : node) : bool := hasClass s link "active".

Definition styleSet (n : node) (prop value : string)
    (st : node -> string -> string) : node -> string -> string :=
  fun m q => if decide (m = n) then (if decide (q = prop) then value else st m q)
             else st m q.

Definition textSet (n : node) (value : string) (tx : node -> string)
  : node -> string :=
  fun m => if decide (m = n) then value else tx m.

(** ** Timers *)

(** [setTimeout(task, delay)]: a negative delay counts as zero. *)
Definition setTimeout {T} (tk : T) (delay current : Z) (tm : Timers T)
  : nat * Timers T :=
  let id := nextId tm in
  (id, mkTimers (table tm ++ [mkTimer id (current + Z.max delay 0) tk]) (S id)).

(** [clearTimeout(id)]; [clearTimeout(undefined)] does nothing. *)
Definition clearTimeout {T} (id : option nat) (tm : Timers T) : Timers T :=
  match id with
  | None => tm
  | Some i =>
      mkTimers (List.filter (fun x => negb (Nat.eqb (tid x) i)) (table tm))
               (nextId tm)
  end.

(** The pending timer to run next among those due by [t]: the earliest
    deadline, and among equal deadlines the one created first. *)
Fixpoint nextDue {T} (t : Z) (l : list (Timer T)) : option (Timer T) :=
  match l with
  | [] => None
  | x :: r =>
      match nextDue t r with
      | Some y => if (due x <=? t) && (due x <=? due y) then Some x else Some y
      | None => if due x <=? t then Some x else None
      end
  end.

(** ** Debouncer (lines 236-246)

    [debounce(func, wait)] allocates the closure variable [timeout] and
    returns [executedFunction].  A call of [executedFunction(...args)]
    cancels the timer [timeout] names and schedules [later], which carries
    the arguments of that call. *)
Definition executedFunction {T} (later : T) (wait current : Z)
    (timeout : option nat) (tm : Timers T) : option nat * Timers T :=
  let tm1 := clearTimeout timeout tm in
  let '(id, tm2) := setTimeout later wait current tm1 in
  (Some id, tm2).

(** ** NavSync and ScrollTracker *)

(** [navLinks.forEach(link => link.classList.remove('active'))] *)
Definition clearActive (p : Page) (cls : node -> ClassList) : node -> ClassList :=
  fold_left (fun c link => classRemove link "active" c) (navLinks p) cls.

(** The click listener of an in-page nav link (lines 11-30).  [this] is the
    link the listener is attached to, [href] its attribute captured at
    load.  The second component tells whether [preventDefault] was
    called. *)
Definition navLinkClick (p : Page) (this : node) (href : string) (s : State)
  : State * bool :=
  let s' :=
    match querySelector p href with
    | QThrows => throw SyntaxError s
    | QNull => s
    | QFound targetSection =>
        match querySelector p ".nav-container" with
        | QThrows => throw SyntaxError s
        | QNull => throw TypeError s
        | QFound container =>
            let headerHeight := offsetHeight (view s) container in
            let top := offsetTop (view s) targetSection - headerHeight in
            let s1 := scrollTo top s in
            let s2 := setClasses (clearActive p (classes s1)) s1 in
            setClasses (classAdd this "active" (classes s2)) s2
        end
    end in
  (s', true).

(** The template literal [`#${sectionId}`]; a missing attribute reads as
    [null] and prints as ["null"]. *)
Definition hashOf (sectionId : option string) : string :=
  String "#" (match sectionId with Some i => i | None => "null" end).

(** Body of the inner [navLinks.forEach]. *)
Definition markLink (p : Page) (wanted : string) (cls : node -> ClassList)
    (link : node) : node -> ClassList :=
  let cls1 := classRemove link "active" cls in
  if decide (hrefAttr p link = Some wanted) then classAdd link "active" cls1
  else cls1.

(** [scrollPosition >= sectionTop && scrollPosition < sectionTop + sectionHeight] *)
Definition probeInside (v : View) (scrollPosition : Z) (section : node) : bool :=
  let sectionTop := offsetTop v section in
  let sectionHeight := offsetHeight v section in
  (sectionTop <=? scrollPosition) && (scrollPosition <? sectionTop + sectionHeight).

(** Body of [sections.forEach]. *)
Definition visitSection (p : Page) (v : View) (scrollPosition : Z)
    (cls : node -> ClassList) (section : node) : node -> ClassList :=
  let sectionId := idAttr p section in
  if probeInside v scrollPosition section
  then fold_left (markLink p (hashOf sectionId)) (navLinks p) cls
  else cls.

(** [updateActiveNavLink] (lines 37-55). *)
Definition updateActiveNavLink (p : Page) (s : State) : State :=
  let scrollPosition := scrollY (view s) + 100 in
  setClasses
    (fold_left (visitSection p (view s) scrollPosition) (sections p) (classes s))
    s.

(** [updateHeader] (lines 155-163); [header] may be [null]. *)
Definition updateHeader (p : Page) (s : State) : State :=
  match header p with
  | None => throw TypeError s
  | Some h =>
      if 50 <? scrollY (view s) then
        setStyle (styleSet h "boxShadow" "0 2px 10px rgba(0, 0, 0, 0.1)"
                   (styleSet h "backgroundColor" "rgba(15, 23, 42, 0.98)"
                      (style s))) s
      else
        setStyle (styleSet h "boxShadow" "none"
                   (styleSet h "backgroundColor" "rgba(15, 23, 42, 0.95)"
                      (style s))) s
  end.

(** ** Resume toggle (lines 64-74) *)
Definition resumeToggle (btn content : node) (s : State) : State :=
  let isVisible := negb (String.eqb (style s content "display") "none") in
  if isVisible then
    setTextContent (textSet btn "View Resume" (textContent s))
      (setStyle (styleSet content "display" "none" (style s)) s)
  else
    setTextContent (textSet btn "Hide Resume" (textContent s))
      (setStyle (styleSet content "display" "block" (style s)) s).

(** ** Mobile menu (lines 81-102) *)

Definition menuToggle (btn panel : node) (s : State) : State :=
  setClasses
    (classToggle btn "active" (classToggle panel "active" (classes s))) s.

Definition menuClose (btn panel : node) (s : State) : State :=
  setClasses
    (classRemove btn "active" (classRemove panel "active" (classes s))) s.

(** The document-level click listener. *)
Definition outsideClick (p : Page) (btn panel target : node) (s : State) : State :=
  if negb (contains p btn target) && negb (contains p panel target)
  then menuClose btn panel s
  else s.

(** The menu is open when the panel carries the class [active]. *)
Definition menuOpen (s : State) (panel : node) : bool := hasClass s panel "active".

(** ** Reveal observer (lines 105-128) *)

Record Entry := mkEntry {
  target : node;            (* entry.target *)
  isIntersecting : bool     (* entry.isIntersecting, computed by the browser
                               with threshold 0.1 and root margin
                               '0px 0px -50px 0px' *)
}.

Definition reveal (s : State) (entry : Entry) : State :=
  if isIntersecting entry then
    setClasses
      (classAdd (target entry) "visible"
         (classAdd (target entry) "fade-in" (classes s))) s
  else s.

Definition observerCallback (entries : list Entry) (s : State) : State :=
  fold_left reveal entries s.

(** An element is revealed when it carries both classes the observer adds. *)
Definition revealed (s : State) (n : node) : Prop :=
  "fade-in" ∈ classes s n ∧ "visible" ∈ classes s n.

(** ** Project cards (lines 134-142) *)
Definition cardEnter (card : node) (s : State) : State :=
  setStyle (styleSet card "transform" "translateY(-8px) scale(1.02)" (style s)) s.

Definition cardLeave (card : node) (s : State) : State :=
  setStyle (styleSet card "transform" "translateY(0) scale(1)" (style s)) s.

(** ** Touch handling (lines 261-275) *)
Definition touchStart (clientY : Z) (s : State) : State :=
  setTouchStartY clientY s.

(** The second component tells whether [preventDefault] was called. *)
Definition touchMove (clientY : Z) (s : State) : State * bool :=
  let touchY := clientY in
  let deltaY := touchStartY s - touchY in
  let v := view s in
  if ((scrollY v =? 0) && (deltaY <? 0))
     || ((bodyOffsetHeight v <=? innerHeight v + scrollY v) && (0 <? deltaY))
  then (s, true)
  else (s, false).

(** ** Typing effect (lines 168-184) *)

(** [text.charAt(i)]: the code unit at index [i], the empty string past
    the end. *)
Definition charAt (tx : list string) (i : nat) : string := nth i tx "".

(** [typeWriter]; it is only ever scheduled when the subtitle exists. *)
Definition typeWriter (p : Page) (s : State) : State :=
  match heroSubtitle p with
  | None => s
  | Some h =>
      if (typed s <? length (text p))%nat then
        let ch := charAt (text p) (typed s) in
        let s1 := setTextContent
                    (textSet h (textContent s h +:+ ch) (textContent s)) s in
        let s2 := setTyped (S (typed s1)) s1 in
        setTimers (snd (setTimeout TypeWriter 100 (now s2) (timers s2))) s2
      else s
  end.

(** ** The page's listeners, wired as in the script *)

(** [executedFunction] of [debounce(updateActiveNavLink, 10)] (line 249). *)
Definition debouncedNav (s : State) : State :=
  let '(t, tm) := executedFunction LaterNav 10 (now s) (navTimeout s) (timers s) in
  setNavTimeout t (setTimers tm s).

(** [executedFunction] of [debounce(updateHeader, 10)] (line 250). *)
Definition debouncedHeader (s : State) : State :=
  let '(t, tm) :=
    executedFunction LaterHeader 10 (now s) (headerTimeout s) (timers s) in
  setHeaderTimeout t (setTimers tm s).

(** [later] of either closure: [clearTimeout(timeout); func(...args)]. *)
Definition laterNav (p : Page) (s : State) : State :=
  let s1 := setTimers (clearTimeout (navTimeout s) (timers s)) s in
  updateActiveNavLink p (recordCall UpdateActiveNavLink s1).

Definition laterHeader (p : Page) (s : State) : State :=
  let s1 := setTimers (clearTimeout (headerTimeout s) (timers s)) s in
  updateHeader p (recordCall UpdateHeader s1).

(** The load handler ran to its end: [createParticles()] (line 211) found
    the [.hero] element it appends the particles to.  Without one,
    [hero.appendChild] (line 207) throws a [TypeError] out of the handler
    and nothing after line 211 is executed. *)
Definition loaded (p : Page) : bool :=
  match hero p with
  | Some _ => true
  | None => false
  end.

(** The [scroll] listeners of [window], in registration order: the two
    direct ones (lines 57, 165) and, when the handler got that far, the two
    debounced ones (lines 249, 250). *)
Definition onScroll (p : Page) (s : State) : State :=
  let s1 := updateActiveNavLink p (recordCall UpdateActiveNavLink s) in
  let s2 := updateHeader p (recordCall UpdateHeader s1) in
  if loaded p then
    let s3 := debouncedNav s2 in
    debouncedHeader s3
  else s2.

(** The [href] of a link that gets the click listener of line 11:
    [href && href.startsWith('#')]. *)
Definition inPageHref (p : Page) (link : node) : option string :=
  match hrefAttr p link with
  | Some h => if String.prefix "#" h then Some h else None
  | None => None
  end.

(** Click listeners attached to elements. *)
Inductive Listener :=
| NavLinkClick (href : string)       (* line 11 *)
| ResumeToggle (btn content : node)  (* line 64 *)
| MenuToggle (btn panel : node)      (* line 82 *)
| MenuClose (btn panel : node)       (* line 89 *)
| ProjectLinkLog.                    (* line 147 *)

(** The click listeners of element [n], in registration order. *)
Definition listenersOn (p : Page) (n : node) : list Listener :=
  (if bool_decide (n ∈ navLinks p) then
     match inPageHref p n with Some h => [NavLinkClick h] | None => [] end
   else [])
  ++ match resumeToggleBtn p, resumeContent p with
     | Some b, Some c => if bool_decide (n = b) then [ResumeToggle b c] else []
     | _, _ => []
     end
  ++ match mobileMenuBtn p, mobileNavLinks p with
     | Some b, Some pn =>
         (if bool_decide (n = b) then [MenuToggle b pn] else [])
         ++ (if bool_decide (n ∈ menuAnchors p) then [MenuClose b pn] else [])
     | _, _ => []
     end
  ++ (if bool_decide (n ∈ projectLinks p) then [ProjectLinkLog] else []).

Definition runListener (p : Page) (this : node) (acc : State * bool)
    (l : Listener) : State * bool :=
  match l with
  | NavLinkClick h =>
      let '(s', d) := navLinkClick p this h (fst acc) in (s', snd acc || d)
  | ResumeToggle b c => (resumeToggle b c (fst acc), snd acc)
  | MenuToggle b pn => (menuToggle b pn (fst acc), snd acc)
  | MenuClose b pn => (menuClose b pn (fst acc), snd acc)
  | ProjectLinkLog => acc
  end.

Definition clickAt (p : Page) (acc : State * bool) (n : node) : State * bool :=
  fold_left (runListener p n) (listenersOn p n) acc.

(** A click on [tgt]: the listeners along the propagation path, then the
    listener of [document] (line 96).  An exception ends the listener it is
    raised in and no other. *)
Definition dispatchClick (p : Page) (tgt : node) (s : State) : State * bool :=
  let acc := fold_left (clickAt p) (path p tgt) (s, false) in
  match mobileMenuBtn p, mobileNavLinks p with
  | Some b, Some pn => (outsideClick p b pn tgt (fst acc), snd acc)
  | _, _ => acc
  end.

(** *** The event loop *)

Definition fireTask (p : Page) (tk : Task) (s : State) : State :=
  match tk with
  | LaterNav => laterNav p s
  | LaterHeader => laterHeader p s
  | TypeWriter => typeWriter p s
  end.

(** Running a due timer removes it from the table. *)
Definition fireTimer (p : Page) (x : Timer Task) (s : State) : State :=
  let s1 := setTimers (clearTimeout (Some (tid x)) (timers s)) s in
  let s2 := setNow (Z.max (now s1) (due x)) s1 in
  fireTask p (task x) s2.

Fixpoint runDue (p : Page) (fuel : nat) (t : Z) (s : State) : State :=
  match fuel with
  | O => s
  | S fuel' =>
      match nextDue t (table (timers s)) with
      | None => s
      | Some x => runDue p fuel' t (fireTimer p x s)
      end
  end.

(** Every timer firing either retires a timer or types one more character. *)
Definition fuelFor (p : Page) (s : State) : nat :=
  (length (table (timers s)) + length (text p) + 1)%nat.

Inductive Event :=
| Click (tgt : node)
| Scroll (y : Z)                       (* the viewport moved to y *)
| Intersection (entries : list Entry)  (* a batch from the observer *)
| TouchStart (clientY : Z)               (* e.touches[0].clientY *)
| TouchMove (clientY : Z)
| MouseEnter (card : node)
| MouseLeave (card : node)
| KeyDown (key : string)
| Reflow (v : View)                    (* layout changed, no listener runs *)
| Idle.                                (* time passes *)

Definition withScrollY (y : Z) (v : View) : View :=
  mkView y (innerHeight v) (bodyOffsetHeight v) (offsetTop v) (offsetHeight v).

(** One event: the state after its listeners ran and whether one of them
    called [preventDefault].  The [touchstart], [touchmove] and [keydown]
    listeners (lines 253-275) exist only when the load handler got past
    line 211. *)
Definition dispatch (p : Page) (e : Event) (s : State) : State * bool :=
  match e with
  | Click tgt => dispatchClick p tgt s
  | Scroll y => (onScroll p (setView (withScrollY y (view s)) s), false)
  | Intersection entries => (observerCallback entries s, false)
  | TouchStart y => (if loaded p then touchStart y s else s, false)
  | TouchMove y => if loaded p then touchMove y s else (s, false)
  | MouseEnter c =>
      (if bool_decide (c ∈ projectCards p) then cardEnter c s else s, false)
  | MouseLeave c =>
      (if bool_decide (c ∈ projectCards p) then cardLeave c s else s, false)
  | KeyDown _ => (s, false)
  | Reflow v => (setView v s, false)
  | Idle => (s, false)
  end.

(** An event arriving at time [t]: timers due by then run first. *)
Definition step (p : Page) (s : State) (te : Z * Event) : State :=
  let t := fst te in
  let s1 := runDue p (fuelFor p s) t s in
  let s2 := setNow (Z.max (now s1) t) s1 in
  fst (dispatch p (snd te) s2).

Definition run (p : Page) (evs : list (Z * Event)) (s : State) : State :=
  fold_left (step p) evs s.

(** ** The debouncer on its own

    [debounce(func, wait)] for an arbitrary [func], driven by a clock: the
    closure owns [timeout], the browser owns the timer table, and each
    pending [later] is identified by the arguments it captured. *)
Module Debounce.
Section Closure.
Context {A W : Type}.
Variable func : A -> W -> W.
Variable wait : Z.

Record Closure := mkClosure {
  world : W;                   (* what func acts on *)
  clock : Z;
  pending : Timers A;
  timeout : option nat;        (* let timeout *)
  ran : list (Z * A)           (* ghost: when func ran, and on what *)
}.

(** [debounce(func, wait)] itself: a fresh closure, [timeout] undefined,
    in a world [w] at time [t] with the timer table [tm]. *)
Definition debounce (w : W) (t : Z) (tm : Timers A) : Closure :=
  mkClosure w t tm None [].

(** [later]: [clearTimeout(timeout); func(...args)]. *)
Definition later (args : A) (c : Closure) : Closure :=
  mkClosure (func args (world c)) (clock c)
    (clearTimeout (timeout c) (pending c)) (timeout c)
    (ran c ++ [(clock c, args)]).

Definition fire (x : Timer A) (c : Closure) : Closure :=
  later (task x)
    (mkClosure (world c) (Z.max (clock c) (due x))
       (clearTimeout (Some (tid x)) (pending c)) (timeout c) (ran c)).

Fixpoint runPending (fuel : nat) (t : Z) (c : Closure) : Closure :=
  match fuel with
  | O => c
  | S fuel' =>
      match nextDue t (table (pending c)) with
      | None => c
      | Some x => runPending fuel' t (fire x c)
      end
  end.

(** Let time pass until [t]; [later] schedules nothing, so one unit of
    fuel per pending timer is enough. *)
Definition advance (t : Z) (c : Closure) : Closure :=
  let c1 := runPending (length (table (pending c))) t c in
  mkClosure (world c1) (Z.max (clock c1) t) (pending c1) (timeout c1) (ran c1).

(** A call [executedFunction(...args)] made at time [t], in whole
    milliseconds.  The timers due before [t] have run by then.  A [later]
    due at [t] itself has not: the call comes first and cancels it, as it
    does when the wrapper is called twice in one task
    ([debounce(f, 0)] called twice in a row runs [f] once). *)
Definition call (c : Closure) (ta : Z * A) : Closure :=
  let c0 := advance (fst ta - 1) c in
  let c1 := mkClosure (world c0) (Z.max (clock c0) (fst ta)) (pending c0)
              (timeout c0) (ran c0) in
  let '(id, tm) :=
    executedFunction (snd ta) wait (clock c1) (timeout c1) (pending c1) in
  mkClosure (world c1) (clock c1) tm id (ran c1).

Definition calls (l : list (Z * A)) (c : Closure) : Closure :=
  fold_left call l c.

(** The rest of a burst whose latest call was at [t0]: times do not
    decrease and each call comes less than [wait] after the one before. *)
Fixpoint burstFrom (t0 : Z) (l : list (Z * A)) : Prop :=
  match l with
  | [] => True
  | ta :: r => t0 <= fst ta ∧ fst ta < t0 + wait ∧ burstFrom (fst ta) r
  end.

(** One pending [later], due [wait] after the call at [t] and holding its
    arguments; [func] has not run since the closure was [c0]. *)
Definition armed (c0 c : Closure) (t : Z) (args : A) : Prop :=
  ∃ id, table (pending c) = [mkTimer id (t + Z.max wait 0) args]
        ∧ timeout c = Some id
        ∧ clock c = t
        ∧ world c = world c0
        ∧ ran c = ran c0.
End Closure.
Arguments mkClosure {A W}.
Arguments world {A W}.
Arguments clock {A W}.
Arguments pending {A W}.
Arguments timeout {A W}.
Arguments ran {A W}.
End Debounce.

(** ** Vocabulary of the properties *)

(** The section [updateActiveNavLink] ends up following: the last one, in
    document order, that the probe is in. *)
Definition lastInside (v : View) (y : Z) (secs : list node) : option node :=
  List.find (probeInside v y) (rev secs).

(** The section's id is the fragment of no nav link's [href]; a section
    without an id counts as unmatched. *)
Definition unmatched (p : Page) (sec : node) : Prop :=
  match idAttr p sec with
  | None => True
  | Some i => ∀ link, link ∈ navLinks p → hrefAttr p link ≠ Some (String "#" i)
  end.

(** A nav link whose [href] is a same-page fragment. *)
Definition inPage (p : Page) (link : node) : Prop :=
  link ∈ navLinks p ∧ ∃ h, inPageHref p link = Some h.

Definition atMostOneActive (p : Page) (s : State) : Prop :=
  ∀ l1 l2, inPage p l1 → inPage p l2 →
    isActive s l1 = true → isActive s l2 = true → l1 = l2.

(** No two in-page nav links share an [href]. *)
Definition distinctHrefs (p : Page) : Prop :=
  ∀ l1 l2, inPage p l1 → inPage p l2 → hrefAttr p l1 = hrefAttr p l2 → l1 = l2.

(** Neither the menu button nor the menu panel is an in-page nav link. *)
Definition menuApart (p : Page) : Prop :=
  ∀ b pn, mobileMenuBtn p = Some b → mobileNavLinks p = Some pn →
    ¬ inPage p b ∧ ¬ inPage p pn.

(** The ways a listener rewrites the class store.  Every run of the page
    moves the store along a chain of these. *)
Inductive storeStep (p : Page) : (node → ClassList) → (node → ClassList) → Prop :=
| StepActivate (cls : node → ClassList) (this : node) :
    inPage p this →
    storeStep p cls (classAdd this "active" (clearActive p cls))
| StepMark (cls : node → ClassList) (sec : node) :
    storeStep p cls
      (fold_left (markLink p (hashOf (idAttr p sec))) (navLinks p) cls)
| StepToggle (cls : node → ClassList) (b pn : node) :
    mobileMenuBtn p = Some b → mobileNavLinks p = Some pn →
    storeStep p cls (classToggle b "active" (classToggle pn "active" cls))
| StepClose (cls : node → ClassList) (b pn : node) :
    storeStep p cls (classRemove b "active" (classRemove pn "active" cls))
| StepReveal (cls : node → ClassList) (n : node) :
    storeStep p cls (classAdd n "visible" (classAdd n "fade-in" cls)).

(** A class list after [classList.toggle('active')]. *)
Definition toggled (X : ClassList) : ClassList :=
  if decide ("active" ∈ X) then X ∖ {[ "active" ]} else X ∪ {[ "active" ]}.

(** What a click listener does to the class list of the menu panel. *)
Definition panelEffect (X : ClassList) (l : Listener) : ClassList :=
  match l with
  | MenuToggle _ _ => toggled X
  | MenuClose _ _ => X ∖ {[ "active" ]}
  | _ => X
  end.

(** Timer firings still to come before the table can be empty: one per
    pending timer and one per character left to type. *)
Definition pendingWork (p : Page) (s : State) : nat :=
  (length (table (timers s)) + (length (text p) - typed s))%nat.

(** How often a scroll function was called. *)
Definition callsOf (f : ScrollFn) (s : State) : nat :=
  length (List.filter
            (fun c => match snd c, f with
                      | UpdateActiveNavLink, UpdateActiveNavLink => true
                      | UpdateHeader, UpdateHeader => true
                      | _, _ => false
                      end) (invocations s)).

(** The claim C2 as it is worded: from a state with at most one active
    in-page link, no run reaches a state with two. *)
Definition singleActiveAlways : Prop :=
  ∀ (p : Page) (s : State) (evs : list (Z * Event)),
    atMostOneActive p s → atMostOneActive p (run p evs s).

(** The claim C10 as it is worded: whenever the probe is inside a section
    that is [unmatched], every nav link ends up inactive. *)
Definition unmatchedSectionClearsAll : Prop :=
  ∀ (p : Page) (s : State) (sec : node),
    sec ∈ sections p →
    probeInside (view s) (scrollY (view s) + 100) sec = true →
    unmatched p sec →
    ∀ link, link ∈ navLinks p → isActive (updateActiveNavLink p s) link = false.

(** The second part of the claim C8 as it is worded: a click on a link of
    the menu leaves the menu closed, whatever it was before.  The
    hypotheses are facts of every document: the links of the menu are
    inside the panel, the panel (the first [.nav-links] element) is not
    one of the [.nav-links a] links, and a propagation path starts at the
    target and names no element twice. *)
Definition menuLinkClickCloses : Prop :=
  ∀ (p : Page) (b pn l : node) (s : State) (t : Z),
    mobileMenuBtn p = Some b → mobileNavLinks p = Some pn →
    pn ∉ navLinks p →
    l ∈ menuAnchors p → pn ∈ path p l → NoDup (path p l) →
    menuOpen (step p s (t, Click l)) pn = false.

(** ** Sample pages and runs *)

Definition noLayout : View := mkView 0 800 3000 (fun _ => 0) (fun _ => 0).

(** Nothing has a class or a style, no timer is pending. *)
Definition idle : State :=
  mkState (fun _ => ∅) (fun _ _ => "") (fun _ => "") noLayout 0 0 [] [] 0
    (mkTimers [] 1) None None [].

Definition onlyFound (sel : string) (n : node) (q : string) : QueryResult :=
  if String.eqb q sel then QFound n else QNull.

(** Nodes: 0 the header, which is also the nav container, 1 and 2 nav
    links, 10 a section, 40 the hero; the menu, the resume block and the
    subtitle are absent. *)
Definition samplePage (href1 href2 : option string) (sectionId : option string)
  : Page :=
  mkPage [0; 1; 2; 10; 40]%nat
    (fun n => if decide (n = 10%nat) then sectionId else None)
    (fun n => if decide (n = 1%nat) then href1
              else if decide (n = 2%nat) then href2 else None)
    (fun n => [n])
    (onlyFound ".nav-container" 0%nat)
    [1; 2]%nat [10]%nat [] [] None None None None [] (Some 0%nat) None []
    (Some 40%nat).

(** The section spans [0, 1000); the nav container is 60 px high. *)
Definition sampleView (y : Z) : View :=
  mkView y 800 3000 (fun _ => 0)
    (fun n => if decide (n = 10%nat) then 1000 else 60).

Definition sampleState (y : Z) : State := setView (sampleView y) idle.

(** Link 1 is active, the viewport is at [y]. *)
Definition linkOneActive (y : Z) : State :=
  setClasses (classAdd 1%nat "active" (fun _ => ∅)) (sampleState y).

(** Link 1 points at the section "about"; link 2 has no [href]. *)
Definition aboutPage : Page := samplePage (Some "#about") None (Some "about").

(** Both nav links point at "#about". *)
Definition twinPage : Page :=
  samplePage (Some "#about") (Some "#about") (Some "about").

(** An outer section "main" (node 10, no link points at it) that spans
    [0, 2000) and holds a section "about" (node 11) spanning [0, 1000);
    link 1 points at "#about"; node 40 is the hero. *)
Definition nestedPage : Page :=
  mkPage [0; 1; 10; 11; 40]%nat
    (fun n => if decide (n = 10%nat) then Some "main"
              else if decide (n = 11%nat) then Some "about" else None)
    (fun n => if decide (n = 1%nat) then Some "#about" else None)
    (fun n => [n])
    (onlyFound ".nav-container" 0%nat)
    [1]%nat [10; 11]%nat [] [] None None None None [] (Some 0%nat) None []
    (Some 40%nat).

Definition nestedView (y : Z) : View :=
  mkView y 800 3000 (fun _ => 0)
    (fun n => if decide (n = 10%nat) then 2000
              else if decide (n = 11%nat) then 1000 else 60).

Definition nestedState (y : Z) : State := setView (nestedView y) idle.

(** Nodes: 0 the header and nav container, 5 the menu panel holding the
    links 1 and 2, 6 the menu button, 10 a section, 20 a paragraph outside
    the header, 40 the hero. *)
Definition menuPage : Page :=
  mkPage [0; 5; 1; 2; 6; 10; 20; 40]%nat
    (fun n => if decide (n = 10%nat) then Some "about" else None)
    (fun n => if decide (n = 1%nat) then Some "#about"
              else if decide (n = 2%nat) then Some "https://example.com"
              else None)
    (fun n => if decide (n = 1%nat) then [1; 5; 0]%nat
              else if decide (n = 2%nat) then [2; 5; 0]%nat
              else if decide (n = 5%nat) then [5; 0]%nat
              else if decide (n = 6%nat) then [6; 0]%nat
              else [n])
    (onlyFound ".nav-container" 0%nat)
    [1; 2]%nat [10]%nat [] [] None None (Some 6%nat) (Some 5%nat) [1; 2]%nat
    (Some 0%nat) None [] (Some 40%nat).

(** The same page with the markup nested the other way round: the menu
    button (node 6) is around the panel (node 5), so a click on a link of
    the menu passes through the panel, then the button, then the header. *)
Definition wrappedMenuPage : Page :=
  mkPage [0; 6; 5; 1; 2; 10; 20; 40]%nat
    (fun n => if decide (n = 10%nat) then Some "about" else None)
    (fun n => if decide (n = 1%nat) then Some "#about"
              else if decide (n = 2%nat) then Some "https://example.com"
              else None)
    (fun n => if decide (n = 1%nat) then [1; 5; 6; 0]%nat
              else if decide (n = 2%nat) then [2; 5; 6; 0]%nat
              else if decide (n = 5%nat) then [5; 6; 0]%nat
              else if decide (n = 6%nat) then [6; 0]%nat
              else [n])
    (onlyFound ".nav-container" 0%nat)
    [1; 2]%nat [10]%nat [] [] None None (Some 6%nat) (Some 5%nat) [1; 2]%nat
    (Some 0%nat) None [] (Some 40%nat).

(** The menu of [menuPage] is open: button and panel carry [active]. *)
Definition menuShown : State :=
  setClasses (classAdd 6%nat "active" (classAdd 5%nat "active" (fun _ => ∅)))
    (sampleState 0).

(** A page with one element for button and panel. *)
Definition oneElementMenuPage : Page :=
  mkPage [0; 5; 1; 10; 40]%nat
    (fun n => if decide (n = 10%nat) then Some "about" else None)
    (fun n => if decide (n = 1%nat) then Some "#about" else None)
    (fun n => if decide (n = 1%nat) then [1; 5; 0]%nat
              else if decide (n = 5%nat) then [5; 0]%nat
              else [n])
    (onlyFound ".nav-container" 0%nat)
    [1]%nat [10]%nat [] [] None None (Some 5%nat) (Some 5%nat) [1]%nat
    (Some 0%nat) None [] (Some 40%nat).

(** The page [p] without its [.hero] element. *)
Definition withoutHero (p : Page) : Page :=
  mkPage (elements p) (idAttr p) (hrefAttr p) (path p) (complexQuery p)
    (navLinks p) (sections p) (projectCards p) (projectLinks p)
    (resumeToggleBtn p) (resumeContent p) (mobileMenuBtn p)
    (mobileNavLinks p) (menuAnchors p) (header p) (heroSubtitle p) (text p)
    None.

(** A finger goes down at [clientY = 100]. *)
Definition fingerDown : list (Z * Event) := [(0, TouchStart 100)].

(** Three scroll events within 10 ms, then quiet until 50 ms. *)
Definition scrollBurst : list (Z * Event) :=
  [(0, Scroll 10); (3, Scroll 20); (6, Scroll 30); (50, Idle)].

(** The page is scrolled, the section leaves the viewport again, a nav link
    is clicked and the page is scrolled back. *)
Definition afterReveal : list (Z * Event) :=
  [(5, Scroll 400); (40, Intersection [mkEntry 10%nat false]);
   (90, Click 1%nat); (200, Scroll 0)].

(** ** Further vocabulary *)

(** The resume block is shown unless its inline [display] is ['none']. *)
Definition resumeVisible (s : State) (content : node) : bool :=
  negb (String.eqb (style s content "display") "none").

(** A page with a hero (node 40) but no nav links, sections or menu; node
    0 is its header, when it has one. *)
Definition barePage (hdr : option node) : Page :=
  mkPage [0; 40]%nat (fun _ => None) (fun _ => None) (fun n => [n])
    (fun _ => QNull) [] [] [] [] None None None None [] hdr None []
    (Some 40%nat).

(** What a click that meets no nav-link listener can change at most, from
    the state [s] on: it does not suppress the default, requests no scroll,
    raises nothing, and leaves the class lists alone except those of the
    menu button and the menu panel. *)
Definition untouchedSince (p : Page) (s : State) (acc : State * bool) : Prop :=
  snd acc = false
  ∧ scrollRequests (fst acc) = scrollRequests s
  ∧ uncaught (fst acc) = uncaught s
  ∧ ∀ l, mobileMenuBtn p ≠ Some l → mobileNavLinks p ≠ Some l →
      classes (fst acc) l = classes s l.

(** *** A debounced function under any schedule

    What happens to a closure of [debounce(func, wait)], in order: the
    wrapper is called, or the browser runs a pending timer.  When a timer
    runs is the browser's choice; a schedule fixes it. *)
Section Schedule.
Context {A W : Type}.
Variable func : A -> W -> W.
Variable wait : Z.

Local Abbreviation Closure := (Debounce.Closure (A:=A) (W:=W)).

Inductive Act :=
| Invoke (args : A)     (* executedFunction(...args) *)
| Expire.               (* the browser runs the oldest pending timer *)

(** A call [executedFunction(...args)] at the closure's current time. *)
Definition invoke (c : Closure) (args : A) : Closure :=
  let '(id, tm) :=
    executedFunction args wait (Debounce.clock c) (Debounce.timeout c)
      (Debounce.pending c) in
  Debounce.mkClosure (Debounce.world c) (Debounce.clock c) tm id
    (Debounce.ran c).

Definition expire (c : Closure) : Closure :=
  match table (Debounce.pending c) with
  | [] => c
  | x :: _ => Debounce.fire func x c
  end.

Definition act (c : Closure) (a : Act) : Closure :=
  match a with
  | Invoke args => invoke c args
  | Expire => expire c
  end.

Definition schedule (l : list Act) (c : Closure) : Closure :=
  fold_left act l c.

(** A buffer of one place: a call fills it, replacing what it held; an
    expiry hands on what it holds, if anything, and empties it.  The
    arguments handed on, in order: *)
Fixpoint honoured (slot : option A) (l : list Act) : list A :=
  match l with
  | [] => []
  | Invoke args :: r => honoured (Some args) r
  | Expire :: r =>
      match slot with
      | Some args => args :: honoured None r
      | None => honoured None r
      end
  end.

(** The closure holds what the buffer holds: no timer when it is empty,
    else exactly the [later] of the call, named by [timeout]. *)
Definition holds (slot : option A) (c : Closure) : Prop :=
  match slot with
  | None => table (Debounce.pending c) = []
  | Some args =>
      ∃ id d, table (Debounce.pending c) = [mkTimer id d args]
              ∧ Debounce.timeout c = Some id
  end.
End Schedule.
Arguments Expire {A}.

(** The string a list of code units spells. *)
Definition spelled (units : list string) : string :=
  fold_right append "" units.

(** The typing effect is under way: the first [i] code units of the
    subtitle are typed and the only pending timer is the next
    [typeWriter]. *)
Definition typing (p : Page) (h : node) (s : State) (i : nat) : Prop :=
  heroSubtitle p = Some h
  ∧ typed s = i
  ∧ (i <= length (text p))%nat
  ∧ textContent s h = spelled (firstn i (text p))
  ∧ ∃ id d, table (timers s) = [mkTimer id d TypeWriter].

(** The browser runs the oldest pending timer, [late] ms after it was due
    (at once, when [late] is negative). *)
Definition expireLate (p : Page) (s : State) (late : Z) : State :=
  match table (timers s) with
  | [] => s
  | x :: _ =>
      fireTimer p x (setNow (Z.max (now s) (due x + Z.max late 0)) s)
  end.

(** A page whose subtitle (node 7) reads "Hé!": three code units. *)
Definition subtitlePage : Page :=
  mkPage [0; 7; 40]%nat (fun _ => None) (fun _ => None) (fun n => [n])
    (fun _ => QNull) [] [] [] [] None None None None [] (Some 0%nat)
    (Some 7%nat) ["H"; "é"; "!"] (Some 40%nat).

(** The state the load handler leaves: subtitle emptied, the first
    [typeWriter] due after one second. *)
Definition subtitleStart : State :=
  setTimers (mkTimers [mkTimer 1 1000 TypeWriter] 2) idle.

(** The timer table is in order: ids are distinct and below the next id to
    hand out, and a pending [later] of a debounced wrapper is the timer the
    wrapper's [timeout] names. *)
Definition tidy (tm : Timers Task) (nt ht : option nat) : Prop :=
  NoDup (map tid (table tm))
  ∧ (∀ x, x ∈ table tm → (tid x < nextId tm)%nat)
  ∧ (∀ x, x ∈ table tm → task x = LaterNav → nt = Some (tid x))
  ∧ (∀ x, x ∈ table tm → task x = LaterHeader → ht = Some (tid x)).

Definition timersTidy (s : State) : Prop :=
  tidy (timers s) (navTimeout s) (headerTimeout s).

Definition isLaterNav (x : Timer Task) : bool :=
  match task x with LaterNav => true | _ => false end.

Definition isLaterHeader (x : Timer Task) : bool :=
  match task x with LaterHeader => true | _ => false end.

(** The part of the state the timers live in. *)
Definition timerPart (s : State) : Timers Task * option nat * option nat :=
  (timers s, navTimeout s, headerTimeout s).

(** Three scroll events within 10 ms, and the state right after them. *)
Definition threeScrolls : list (Z * Event) :=
  [(0, Scroll 10); (3, Scroll 20); (6, Scroll 30)].

(** The menu button shows the state of the menu panel: both carry the
    class [active] or neither does. *)
Definition menuInSync (s : State) (b pn : node) : Prop :=
  "active" ∈ classes s b ↔ "active" ∈ classes s pn.

(** Click listeners that neither activate a link nor toggle the menu. *)
Definition calm (l : Listener) : Prop :=
  match l with
  | NavLinkClick _ | MenuToggle _ _ => False
  | _ => True
  end.

(** What calm listeners can have changed since the state [s]: no scroll
    request and no exception were added, no class was added anywhere, and
    only the menu button [b] and the menu panel [pn] may have lost one. *)
Definition calmSince (b pn : node) (s : State) (acc : State * bool) : Prop :=
  scrollRequests (fst acc) = scrollRequests s
  ∧ uncaught (fst acc) = uncaught s
  ∧ (∀ m d, d ∈ classes (fst acc) m → d ∈ classes s m)
  ∧ (∀ m, m ≠ b → m ≠ pn → classes (fst acc) m = classes s m).

(** The [clientY] of the latest [touchstart] among the events, [y0] when
    there is none. *)
Definition lastTouchStart (y0 : Z) (evs : list (Z * Event)) : Z :=
  fold_left (fun y te => match snd te with TouchStart c => c | _ => y end) evs y0.

(** A page with one project card (node 30), a header (node 0) and a hero
    (node 40). *)
Definition cardPage : Page :=
  mkPage [0; 30; 40]%nat (fun _ => None) (fun _ => None) (fun n => [n])
    (fun _ => QNull) [] [] [30]%nat [] None None None None [] (Some 0%nat)
    None [] (Some 40%nat).

(** * Properties *)

(** ** The class store *)

Lemma setClasses_same (s : State) : setClasses (classes s) s = s.
Proof. now destruct s. Qed.

Lemma elem_classAdd (n m : node) (c d : string) (cls : node -> ClassList) :
  d ∈ classAdd n c cls m ↔ d ∈ cls m ∨ (m = n ∧ d = c).
Proof. unfold classAdd. destruct (decide (m = n)); set_solver. Qed.

Lemma elem_classRemove (n m : node) (c d : string) (cls : node -> ClassList) :
  d ∈ classRemove n c cls m ↔ d ∈ cls m ∧ ¬ (m = n ∧ d = c).
Proof. unfold classRemove. destruct (decide (m = n)); set_solver. Qed.

Lemma elem_classToggle (n m : node) (c d : string) (cls : node -> ClassList) :
  d ∈ classToggle n c cls m ↔
  (d ∈ cls m ∧ ¬ (m = n ∧ d = c)) ∨ (m = n ∧ d = c ∧ c ∉ cls n).
Proof.
  unfold classToggle. destruct (decide (c ∈ cls n)) as [Hin|Hout].
  - rewrite elem_classRemove. tauto.
  - rewrite elem_classAdd. split.
    + intros [H|[-> ->]]; [left; split; [done|] | tauto].
      intros [-> ->]. done.
    + tauto.
Qed.

Lemma elem_clearActive (p : Page) (cls : node -> ClassList) (m : node) (d : string) :
  d ∈ clearActive p cls m ↔ d ∈ cls m ∧ ¬ (m ∈ navLinks p ∧ d = "active").
Proof.
  unfold clearActive. induction (navLinks p) as [|l ls IH] using rev_ind.
  - simpl. set_solver.
  - rewrite fold_left_app. simpl. rewrite elem_classRemove, IH.
    rewrite elem_of_app, list_elem_of_singleton. tauto.
Qed.

(** After the inner loop of [updateActiveNavLink], a nav link is active
    exactly when its [href] is the wanted one; nothing else changes. *)
Lemma elem_markLinks (p : Page) (wanted : string) (ls : list node)
    (cls : node -> ClassList) (m : node) (d : string) :
  d ∈ fold_left (markLink p wanted) ls cls m ↔
  (d ∈ cls m ∧ ¬ (m ∈ ls ∧ d = "active"))
  ∨ (m ∈ ls ∧ d = "active" ∧ hrefAttr p m = Some wanted).
Proof.
  induction ls as [|l ls IH] using rev_ind.
  - simpl. set_solver.
  - rewrite fold_left_app. simpl. unfold markLink at 1.
    destruct (decide (hrefAttr p l = Some wanted)) as [Hw|Hw].
    + rewrite elem_classAdd, elem_classRemove, IH.
      rewrite elem_of_app, list_elem_of_singleton.
      destruct (decide (m = l)) as [->|Hne]; intuition (subst; auto).
    + rewrite elem_classRemove, IH.
      rewrite elem_of_app, list_elem_of_singleton.
      destruct (decide (m = l)) as [->|Hne]; intuition (subst; auto).
Qed.

(** A section the probe is not in leaves the store as it is. *)
Lemma visitSection_outside (p : Page) (v : View) (y : Z)
    (cls : node -> ClassList) (sec : node) :
  probeInside v y sec = false → visitSection p v y cls sec = cls.
Proof. unfold visitSection. now intros ->. Qed.

Lemma visitSections_outside (p : Page) (v : View) (y : Z) (secs : list node)
    (cls : node -> ClassList) :
  (∀ sec, sec ∈ secs → probeInside v y sec = false) →
  fold_left (visitSection p v y) secs cls = cls.
Proof.
  revert cls. induction secs as [|sec secs IH]; intros cls H; [done|].
  simpl. rewrite visitSection_outside by (apply H; left).
  apply IH. intros x Hx. apply H. now right.
Qed.

Lemma probeInside_spec (v : View) (y : Z) (sec : node) :
  probeInside v y sec = true ↔
  offsetTop v sec <= y ∧ y < offsetTop v sec + offsetHeight v sec.
Proof. unfold probeInside. rewrite andb_true_iff. lia. Qed.

Lemma probeInside_false (v : View) (y : Z) (sec : node) :
  ¬ (offsetTop v sec <= y ∧ y < offsetTop v sec + offsetHeight v sec) →
  probeInside v y sec = false.
Proof.
  intros H. destruct (probeInside v y sec) eqn:E; [|done].
  apply probeInside_spec in E. tauto.
Qed.

(** What the header update, the debounced wrappers and the bookkeeping
    touch: never a [classList]. *)
Lemma classes_updateHeader (p : Page) (s : State) :
  classes (updateHeader p s) = classes s.
Proof. unfold updateHeader. destruct (header p); [|done]. now destruct (50 <? _). Qed.

Lemma classes_debouncedNav (s : State) : classes (debouncedNav s) = classes s.
Proof. done. Qed.

Lemma classes_debouncedHeader (s : State) : classes (debouncedHeader s) = classes s.
Proof. done. Qed.

Lemma classes_onScroll (p : Page) (s : State) :
  classes (onScroll p s)
  = classes (updateActiveNavLink p (recordCall UpdateActiveNavLink s)).
Proof.
  unfold onScroll. destruct (loaded p).
  - now rewrite classes_debouncedHeader, classes_debouncedNav, classes_updateHeader.
  - now rewrite classes_updateHeader.
Qed.

Lemma classes_updateActiveNavLink (p : Page) (s : State) :
  classes (updateActiveNavLink p s) =
  fold_left (visitSection p (view s) (scrollY (view s) + 100)) (sections p)
    (classes s).
Proof. done. Qed.

Lemma isActive_ext (s s' : State) (link : node) :
  ("active" ∈ classes s' link ↔ "active" ∈ classes s link) →
  isActive s' link = isActive s link.
Proof.
  intros H. unfold isActive, hasClass. apply bool_decide_ext. exact H.
Qed.

Lemma isActive_true (s : State) (link : node) :
  isActive s link = true ↔ "active" ∈ classes s link.
Proof. unfold isActive, hasClass. apply bool_decide_eq_true. Qed.

Lemma isActive_false (s : State) (link : node) :
  isActive s link = false ↔ "active" ∉ classes s link.
Proof. unfold isActive, hasClass. apply bool_decide_eq_false. Qed.

(** ** ScrollTracker *)

(** What [updateActiveNavLink] does to the store, in full: with no section
    under the probe nothing; otherwise the nav links are marked after the
    last section under the probe. *)
Lemma elem_visitSections (p : Page) (v : View) (y : Z) (secs : list node)
    (cls : node -> ClassList) (m : node) (d : string) :
  d ∈ fold_left (visitSection p v y) secs cls m ↔
  match lastInside v y secs with
  | None => d ∈ cls m
  | Some sec =>
      (d ∈ cls m ∧ ¬ (m ∈ navLinks p ∧ d = "active"))
      ∨ (m ∈ navLinks p ∧ d = "active"
         ∧ hrefAttr p m = Some (hashOf (idAttr p sec)))
  end.
Proof.
  unfold lastInside. induction secs as [|sec secs IH] using rev_ind; [done|].
  rewrite fold_left_app, rev_app_distr. simpl. unfold visitSection at 1.
  destruct (probeInside v y sec) eqn:E; [|exact IH].
  rewrite elem_markLinks.
  destruct (List.find (probeInside v y) (rev secs)); rewrite IH; tauto.
Qed.

(** C1: when the probe [scrollY + 100] is in no section's interval
    [[offsetTop, offsetTop + offsetHeight)], [updateActiveNavLink] changes
    nothing, and the whole scroll tick leaves the active state of every nav
    link as it was: an active link stays active and is not cleared. *)
Theorem C1_probe_in_no_section_keeps_active (p : Page) (s : State) (y : Z) :
  (∀ sec, sec ∈ sections p →
     ¬ (offsetTop (view s) sec <= y + 100
        ∧ y + 100 < offsetTop (view s) sec + offsetHeight (view s) sec)) →
  updateActiveNavLink p (setView (withScrollY y (view s)) s)
    = setView (withScrollY y (view s)) s
  ∧ ∀ link, isActive (fst (dispatch p (Scroll y) s)) link = isActive s link.
Proof.
  intros Hgap. set (v := withScrollY y (view s)).
  assert (Hfold : ∀ cls,
    fold_left (visitSection p v (y + 100)) (sections p) cls = cls).
  { intros cls. apply visitSections_outside. intros sec Hsec.
    apply probeInside_false, Hgap, Hsec. }
  assert (Hsame : ∀ s0, view s0 = v → updateActiveNavLink p s0 = s0).
  { intros s0 Hv. unfold updateActiveNavLink. rewrite Hv. simpl.
    rewrite Hfold. apply setClasses_same. }
  split; [now apply Hsame|].
  intros link. apply isActive_ext.
  change (fst (dispatch p (Scroll y) s)) with (onScroll p (setView v s)).
  rewrite classes_onScroll.
  rewrite Hsame; done.
Qed.

Lemma C1_probe_in_no_section_keeps_active_witness :
  updateActiveNavLink aboutPage
    (setView (withScrollY 2000 (view (linkOneActive 0))) (linkOneActive 0))
    = setView (withScrollY 2000 (view (linkOneActive 0))) (linkOneActive 0)
  ∧ ∀ link, isActive (fst (dispatch aboutPage (Scroll 2000) (linkOneActive 0))) link
            = isActive (linkOneActive 0) link.
Proof.
  apply (C1_probe_in_no_section_keeps_active aboutPage (linkOneActive 0) 2000).
  intros sec Hsec. apply list_elem_of_singleton in Hsec. subst sec.
  simpl. lia.
Defined.

(** In that run the link that was active before the tick is active after. *)
Example gap_keeps_link_one :
  isActive (fst (dispatch aboutPage (Scroll 2000) (linkOneActive 0))) 1%nat = true.
Proof. now vm_compute. Qed.

(** C10 as worded fails: with a section "about" nested in a section "main"
    that no link points at, the probe is inside "main" and yet the link to
    "about" is active. *)
Lemma C10_nested_sections_counterexample : ¬ unmatchedSectionClearsAll.
Proof.
  intros H.
  specialize (H nestedPage (nestedState 0) 10%nat).
  assert (Hact : isActive (updateActiveNavLink nestedPage (nestedState 0)) 1%nat
                 = true) by now vm_compute.
  rewrite H in Hact; [discriminate| | | |].
  - apply (bool_decide_unpack _). now vm_compute.
  - now vm_compute.
  - unfold unmatched. simpl. intros link Hlink.
    apply list_elem_of_singleton in Hlink. subst link. simpl. discriminate.
  - apply (bool_decide_unpack _). now vm_compute.
Qed.

(** C10 (amended): when the probe [scrollY + 100] is inside a section and
    inside no other section, and no nav link's [href] is [#] followed by
    that section's id (for a section without an id attribute: no nav link's
    [href] is ["#null"]), [updateActiveNavLink] removes the active state
    from every nav link and sets it on none. *)
Theorem C10_unmatched_section_clears_all (p : Page) (s : State) (sec : node) :
  sec ∈ sections p →
  probeInside (view s) (scrollY (view s) + 100) sec = true →
  (∀ sec', sec' ∈ sections p →
     probeInside (view s) (scrollY (view s) + 100) sec' = true → sec' = sec) →
  (∀ link, link ∈ navLinks p →
     hrefAttr p link ≠ Some (String "#" (match idAttr p sec with
                                          | Some i => i
                                          | None => "null"
                                          end))) →
  ∀ link, link ∈ navLinks p → isActive (updateActiveNavLink p s) link = false.
Proof.
  intros Hsec Hin Honly Hno link Hlink.
  apply isActive_false. rewrite classes_updateActiveNavLink, elem_visitSections.
  destruct (lastInside _ _ _) as [sec'|] eqn:E; unfold lastInside in E.
  - apply find_some in E as [E1 E2]. apply in_rev, list_elem_of_In in E1.
    rewrite (Honly sec' E1 E2).
    intros [[_ H]|(_ & _ & H)]; [tauto|]. exact (Hno link Hlink H).
  - exfalso. pose proof (find_none _ _ E sec) as Hnone.
    rewrite Hin in Hnone. enough (true = false) by discriminate.
    apply Hnone. rewrite <- in_rev. apply list_elem_of_In, Hsec.
Qed.

Lemma C10_unmatched_section_clears_all_witness :
  isActive (updateActiveNavLink (samplePage (Some "#about") (Some "#work") (Some "blog"))
              (linkOneActive 0))
    1%nat = false.
Proof.
  apply (C10_unmatched_section_clears_all
           (samplePage (Some "#about") (Some "#work") (Some "blog"))
           (linkOneActive 0)
           10%nat).
  - apply (bool_decide_unpack _). now vm_compute.
  - now vm_compute.
  - intros sec' Hsec' _. now apply list_elem_of_singleton in Hsec'.
  - intros link Hlink. apply elem_of_cons in Hlink as [->|Hlink].
    + simpl. discriminate.
    + apply list_elem_of_singleton in Hlink. subst link. simpl. discriminate.
  - apply (bool_decide_unpack _). now vm_compute.
Defined.

(** The same without an id on the section: both links are cleared. *)
Example missing_id_clears_links :
  isActive (updateActiveNavLink (samplePage (Some "#about") (Some "#work") None)
              (linkOneActive 0)) 1%nat = false.
Proof. now vm_compute. Qed.

(** A section without an id is compared as "#null", though: a link with
    that [href] becomes active under it. *)
Example missing_id_matches_null_link :
  isActive (updateActiveNavLink (samplePage (Some "#null") None None) (sampleState 0))
    1%nat = true.
Proof. now vm_compute. Qed.

(** ** SmoothScrollNavigator *)

Lemma querySelector_plain (p : Page) (ident : string) :
  plainIdent ident →
  querySelector p (String "#" ident) =
  match List.find (hasId p ident) (elements p) with
  | Some n => QFound n
  | None => QNull
  end.
Proof. unfold plainIdent, querySelector. now intros ->. Qed.

Lemma querySelector_navContainer (p : Page) :
  querySelector p ".nav-container" = complexQuery p ".nav-container".
Proof. reflexivity. Qed.

(** When the fragment is a plain identifier, an element carries it as id
    and the nav container exists, the click listener suppresses the default,
    asks for a scroll to the target's [offsetTop] minus the container's
    height and leaves the clicked link active, all before it returns. *)
Lemma navLinkClick_resolved (p : Page) (this : node) (ident : string)
    (s : State) (container : node) :
  plainIdent ident →
  (∃ n, n ∈ elements p ∧ idAttr p n = Some ident) →
  complexQuery p ".nav-container" = QFound container →
  ∃ targetSection,
    List.find (hasId p ident) (elements p) = Some targetSection
    ∧ idAttr p targetSection = Some ident
    ∧ snd (navLinkClick p this (String "#" ident) s) = true
    ∧ isActive (fst (navLinkClick p this (String "#" ident) s)) this = true
    ∧ scrollRequests (fst (navLinkClick p this (String "#" ident) s))
      = (scrollRequests s
          ++ [offsetTop (view s) targetSection - offsetHeight (view s) container])%list
    ∧ uncaught (fst (navLinkClick p this (String "#" ident) s)) = uncaught s.
Proof.
  intros Hplain (n & Hn & Hid) Hc.
  destruct (List.find (hasId p ident) (elements p)) as [tg|] eqn:E.
  - exists tg. apply find_some in E as E'. destruct E' as [_ E2].
    apply bool_decide_eq_true in E2.
    unfold navLinkClick.
    rewrite (querySelector_plain p ident Hplain), E, querySelector_navContainer, Hc.
    repeat split; try done.
    apply isActive_true. simpl. rewrite elem_classAdd. tauto.
  - exfalso. pose proof (find_none _ _ E n) as Hnone.
    unfold hasId in Hnone. rewrite bool_decide_eq_true_2 in Hnone by done.
    enough (true = false) by discriminate.
    apply Hnone. apply list_elem_of_In, Hn.
Qed.

(** When the fragment is a plain identifier that no element carries, the
    listener suppresses the default and does nothing else. *)
Lemma navLinkClick_unresolved (p : Page) (this : node) (ident : string) (s : State) :
  plainIdent ident →
  (∀ n, n ∈ elements p → idAttr p n ≠ Some ident) →
  navLinkClick p this (String "#" ident) s = (s, true).
Proof.
  intros Hplain Hno. unfold navLinkClick.
  rewrite (querySelector_plain p ident Hplain).
  destruct (List.find (hasId p ident) (elements p)) as [tg|] eqn:E; [|done].
  apply find_some in E as [E1 E2]. apply bool_decide_eq_true in E2.
  apply list_elem_of_In in E1. now destruct (Hno tg E1).
Qed.

(** C3, at a page whose section has the id "2024" and whose first nav link
    points at "#2024": [querySelector] rejects the selector, so the click
    suppresses the default but neither activates the link nor asks for a
    scroll; a [SyntaxError] escapes the listener. *)
Theorem C3_numeric_id_click_throws :
  (∃ n, n ∈ elements (samplePage (Some "#2024") None (Some "2024"))
        ∧ idAttr (samplePage (Some "#2024") None (Some "2024")) n = Some "2024")
  ∧ inPageHref (samplePage (Some "#2024") None (Some "2024")) 1%nat = Some "#2024"
  ∧ snd (dispatch (samplePage (Some "#2024") None (Some "2024"))
           (Click 1%nat) (sampleState 0)) = true
  ∧ isActive (fst (dispatch (samplePage (Some "#2024") None (Some "2024"))
                     (Click 1%nat) (sampleState 0))) 1%nat = false
  ∧ scrollRequests (fst (dispatch (samplePage (Some "#2024") None (Some "2024"))
                           (Click 1%nat) (sampleState 0))) = []
  ∧ uncaught (fst (dispatch (samplePage (Some "#2024") None (Some "2024"))
                     (Click 1%nat) (sampleState 0))) = [SyntaxError].
Proof.
  split; [exists 10%nat; split; [|reflexivity]|now vm_compute].
  apply (bool_decide_unpack _). now vm_compute.
Qed.

(** C5, at a page whose first nav link has the href "#": no element has
    the empty id, the click suppresses the default and changes neither the
    active links nor the scroll position, but a [SyntaxError] escapes the
    listener. *)
Theorem C5_bare_hash_click_throws :
  (∀ n, n ∈ elements (samplePage (Some "#") None (Some "about")) →
        idAttr (samplePage (Some "#") None (Some "about")) n ≠ Some "")
  ∧ inPageHref (samplePage (Some "#") None (Some "about")) 1%nat = Some "#"
  ∧ snd (dispatch (samplePage (Some "#") None (Some "about"))
           (Click 1%nat) (sampleState 0)) = true
  ∧ scrollRequests (fst (dispatch (samplePage (Some "#") None (Some "about"))
                           (Click 1%nat) (sampleState 0))) = []
  ∧ uncaught (fst (dispatch (samplePage (Some "#") None (Some "about"))
                     (Click 1%nat) (sampleState 0))) = [SyntaxError].
Proof.
  split; [|now vm_compute].
  intros n Hn. simpl. destruct (decide (n = 10%nat)); discriminate.
Qed.

(** A click on a link to an existing section, for comparison. *)
Example click_about :
  snd (dispatch aboutPage (Click 1%nat) (sampleState 0)) = true
  ∧ isActive (fst (dispatch aboutPage (Click 1%nat) (sampleState 0))) 1%nat = true
  ∧ scrollRequests (fst (dispatch aboutPage (Click 1%nat) (sampleState 0))) = [-60]
  ∧ uncaught (fst (dispatch aboutPage (Click 1%nat) (sampleState 0))) = [].
Proof. now vm_compute. Qed.

(** ** Touch handling *)

(** The condition of the [touchmove] listener (lines 266-275), with
    [deltaY = touchStartY - touchY]: an upward drag ([deltaY < 0]) has its
    default suppressed at [scrollY = 0] and not at any [scrollY > 0]; a
    downward drag ([deltaY > 0]) has its default suppressed exactly when
    the viewport bottom has reached the end of the document.  The listener
    changes no state. *)
Lemma touchMove_overscroll_guard (s : State) (clientY : Z) :
  (scrollY (view s) = 0 → touchStartY s - clientY < 0 →
     snd (touchMove clientY s) = true)
  ∧ (scrollY (view s) > 0 → touchStartY s - clientY < 0 →
     snd (touchMove clientY s) = false)
  ∧ (touchStartY s - clientY > 0 →
     (snd (touchMove clientY s) = true ↔
      innerHeight (view s) + scrollY (view s) >= bodyOffsetHeight (view s)))
  ∧ fst (touchMove clientY s) = s.
Proof.
  unfold touchMove.
  destruct (scrollY (view s) =? 0) eqn:E0;
    destruct (touchStartY s - clientY <? 0) eqn:E1;
    destruct (bodyOffsetHeight (view s) <=? innerHeight (view s) + scrollY (view s)) eqn:E2;
    destruct (0 <? touchStartY s - clientY) eqn:E3; simpl;
    repeat split; try done; lia.
Qed.

(** With a [.hero] element on the page the touch listeners are registered,
    and a touch event runs them. *)
Lemma touch_with_hero (p : Page) (s : State) (y : Z) :
  loaded p = true →
  dispatch p (TouchStart y) s = (touchStart y s, false)
  ∧ dispatch p (TouchMove y) s = touchMove y s.
Proof. intros H. simpl. now rewrite H. Qed.

(** Without one they are not: no touch event changes the state or has its
    default suppressed. *)
Lemma touch_without_hero (p : Page) (s : State) (y : Z) :
  loaded p = false →
  dispatch p (TouchStart y) s = (s, false)
  ∧ dispatch p (TouchMove y) s = (s, false).
Proof. intros H. simpl. now rewrite H. Qed.

(** On a page with a [.hero] element, an upward drag at the top of the
    page, measured from the latest [touchstart], has its default
    suppressed, and has not once the page is scrolled. *)
Example drag_at_top_with_hero :
  snd (dispatch aboutPage (TouchMove 150)
         (run aboutPage fingerDown (sampleState 0))) = true
  ∧ snd (dispatch aboutPage (TouchMove 150)
           (run aboutPage fingerDown (sampleState 300))) = false.
Proof. now vm_compute. Qed.

(** C9 fails on a page without a [.hero] element: the load handler throws
    in [createParticles] (line 211) before it reaches the registration of
    the touch listeners (lines 262 and 266), so an upward drag
    ([deltaY < 0]) with the page at [scrollY = 0] does not have its default
    suppressed.  The same drag on the same page with a [.hero] element is
    suppressed. *)
Theorem C9_touchmove_without_hero_not_suppressed :
  scrollY (view (run (withoutHero aboutPage) fingerDown (sampleState 0))) = 0
  ∧ 100 - 150 < 0
  ∧ touchStartY (run (withoutHero aboutPage) fingerDown (sampleState 0)) - 150 < 0
  ∧ snd (dispatch (withoutHero aboutPage) (TouchMove 150)
           (run (withoutHero aboutPage) fingerDown (sampleState 0))) = false
  ∧ snd (dispatch aboutPage (TouchMove 150)
           (run aboutPage fingerDown (sampleState 0))) = true.
Proof. now vm_compute. Qed.

(** ** The event loop runs every due timer *)

Lemma nextDue_elem {T : Type} (t : Z) (l : list (Timer T)) (x : Timer T) :
  nextDue t l = Some x → x ∈ l ∧ due x <= t.
Proof.
  revert x. induction l as [|y l IH]; intros x; [discriminate|].
  simpl. destruct (nextDue t l) as [z|].
  - destruct (due y <=? t) eqn:E; simpl.
    + destruct (due y <=? due z).
      * intros [= <-]. split; [left | lia].
      * intros [= <-]. destruct (IH z eq_refl). split; [now right | done].
    + intros [= <-]. destruct (IH z eq_refl). split; [now right | done].
  - destruct (due y <=? t) eqn:E; [|discriminate].
    intros [= <-]. split; [left | lia].
Qed.

Lemma clearTimeout_length {T : Type} (id : option nat) (tm : Timers T) :
  (length (table (clearTimeout id tm)) <= length (table tm))%nat.
Proof.
  destruct id as [i|]; simpl; [|lia]. apply List.filter_length_le.
Qed.

Lemma clearTimeout_shrinks {T : Type} (x : Timer T) (tm : Timers T) :
  x ∈ table tm →
  (length (table (clearTimeout (Some (tid x)) tm)) < length (table tm))%nat.
Proof.
  simpl. induction (table tm) as [|y l IH]; intros Hin.
  - now apply elem_of_nil in Hin.
  - simpl. apply elem_of_cons in Hin as [<-|Hin].
    + rewrite Nat.eqb_refl. simpl.
      pose proof (List.filter_length_le
                    (fun y => negb (Nat.eqb (tid y) (tid x))) l). lia.
    + specialize (IH Hin). destruct (negb _); simpl; lia.
Qed.

Lemma timers_updateActiveNavLink (p : Page) (s : State) :
  timers (updateActiveNavLink p s) = timers s
  ∧ typed (updateActiveNavLink p s) = typed s.
Proof. done. Qed.

Lemma timers_updateHeader (p : Page) (s : State) :
  timers (updateHeader p s) = timers s ∧ typed (updateHeader p s) = typed s.
Proof. unfold updateHeader. destruct (header p); [|done]. now destruct (50 <? _). Qed.

Lemma fireTask_work (p : Page) (tk : Task) (s : State) :
  (pendingWork p (fireTask p tk s) <= pendingWork p s)%nat.
Proof.
  unfold pendingWork. destruct tk; cbn [fireTask].
  - unfold laterNav.
    destruct (timers_updateActiveNavLink p
                (recordCall UpdateActiveNavLink
                   (setTimers (clearTimeout (navTimeout s) (timers s)) s)))
      as [-> ->].
    simpl. pose proof (clearTimeout_length (navTimeout s) (timers s)).
    destruct (navTimeout s); simpl in *; lia.
  - unfold laterHeader.
    destruct (timers_updateHeader p
                (recordCall UpdateHeader
                   (setTimers (clearTimeout (headerTimeout s) (timers s)) s)))
      as [-> ->].
    simpl. pose proof (clearTimeout_length (headerTimeout s) (timers s)).
    destruct (headerTimeout s); simpl in *; lia.
  - unfold typeWriter. destruct (heroSubtitle p); [|lia].
    destruct (typed s <? length (text p))%nat eqn:E; [|lia].
    apply Nat.ltb_lt in E. simpl. rewrite length_app. simpl. lia.
Qed.

Lemma fireTimer_work (p : Page) (t : Z) (x : Timer Task) (s : State) :
  nextDue t (table (timers s)) = Some x →
  (pendingWork p (fireTimer p x s) < pendingWork p s)%nat.
Proof.
  intros Hx. apply nextDue_elem in Hx as [Hin _].
  unfold fireTimer. eapply Nat.le_lt_trans; [apply fireTask_work|].
  unfold pendingWork. cbn [timers typed setNow setTimers].
  pose proof (clearTimeout_shrinks x (timers s) Hin). lia.
Qed.

Lemma runDue_settles (p : Page) (t : Z) (fuel : nat) :
  ∀ s, (pendingWork p s < fuel)%nat →
       nextDue t (table (timers (runDue p fuel t s))) = None.
Proof.
  induction fuel as [|fuel IH]; intros s Hwork; [lia|].
  simpl. destruct (nextDue t (table (timers s))) as [x|] eqn:E; [|exact E].
  apply IH. pose proof (fireTimer_work p t x s E). lia.
Qed.

(** The fuel [step] hands to [runDue] is enough: when the listeners of an
    event run, no timer due by then is left pending. *)
Lemma runDue_fuelFor (p : Page) (t : Z) (s : State) :
  nextDue t (table (timers (runDue p (fuelFor p s) t s))) = None.
Proof. apply runDue_settles. unfold pendingWork, fuelFor. lia. Qed.

(** ** Debouncer *)

Lemma last_nonempty {X : Type} (x : X) (l : list X) (d d' : X) :
  List.last (x :: l) d = List.last (x :: l) d'.
Proof.
  revert x. induction l as [|y l IH]; intros x; [done|].
  change (List.last (y :: l) d = List.last (y :: l) d'). apply IH.
Qed.

Section DebounceProperties.
Context {A W : Type}.
Variable func : A → W → W.
Variable wait : Z.

Local Abbreviation Closure := (Debounce.Closure (A:=A) (W:=W)).
Local Abbreviation call := (Debounce.call func wait).
Local Abbreviation calls := (Debounce.calls func wait).
Local Abbreviation advance := (Debounce.advance func).
Local Abbreviation armed := (Debounce.armed wait).
Local Abbreviation burstFrom := (Debounce.burstFrom (A:=A) wait).

Lemma advance_idle (c : Closure) (t : Z) :
  table (Debounce.pending c) = [] →
  advance t c
  = Debounce.mkClosure (Debounce.world c) (Z.max (Debounce.clock c) t)
      (Debounce.pending c) (Debounce.timeout c) (Debounce.ran c).
Proof. unfold Debounce.advance. now intros ->. Qed.

(** Before its deadline the pending [later] stays pending. *)
Lemma advance_armed_early (c0 c : Closure) (t : Z) (args : A) (t' : Z) :
  armed c0 c t args → t' < t + Z.max wait 0 →
  advance t' c
  = Debounce.mkClosure (Debounce.world c) (Z.max (Debounce.clock c) t')
      (Debounce.pending c) (Debounce.timeout c) (Debounce.ran c).
Proof.
  intros (id & Htab & _) Hlt. unfold Debounce.advance. rewrite Htab. simpl.
  rewrite Htab. simpl.
  destruct (t + Z.max wait 0 <=? t') eqn:E; [lia|done].
Qed.

(** The first call arms the closure. *)
Lemma call_arms (c0 : Closure) (t : Z) (args : A) :
  table (Debounce.pending c0) = [] → Debounce.clock c0 <= t →
  armed c0 (call c0 (t, args)) t args.
Proof.
  intros Htab Hclock. unfold Debounce.call. rewrite advance_idle by done.
  simpl. exists (nextId (Debounce.pending c0)).
  assert (Hclear : table (clearTimeout (Debounce.timeout c0) (Debounce.pending c0)) = []).
  { destruct (Debounce.timeout c0); simpl; now rewrite Htab. }
  assert (Hnext : nextId (clearTimeout (Debounce.timeout c0) (Debounce.pending c0))
                = nextId (Debounce.pending c0)).
  { now destruct (Debounce.timeout c0). }
  unfold executedFunction, setTimeout. rewrite Hclear, Hnext. simpl.
  replace (Z.max (Z.max (Debounce.clock c0) (t - 1)) t) with t by lia.
  repeat split; done.
Qed.

(** A call made before the deadline replaces the pending [later]. *)
Lemma call_rearms (c0 c : Closure) (t : Z) (args : A) (t' : Z) (args' : A) :
  armed c0 c t args → t <= t' → t' < t + wait →
  armed c0 (call c (t', args')) t' args'.
Proof.
  intros Harmed Hle Hlt.
  unfold Debounce.call. cbn [fst snd].
  rewrite (advance_armed_early c0 c t args (t' - 1)) by (done || lia).
  destruct Harmed as (id & Htab & Hto & Hclock & Hworld & Hran). simpl.
  unfold executedFunction, setTimeout. rewrite Hto. simpl. rewrite Htab. simpl.
  rewrite Nat.eqb_refl. simpl.
  exists (nextId (Debounce.pending c)).
  replace (Z.max (Z.max (Debounce.clock c) (t' - 1)) t') with t' by lia.
  repeat split; done.
Qed.

Lemma calls_rearm (c0 : Closure) (l : list (Z * A)) :
  ∀ (c : Closure) (t : Z) (args : A),
    armed c0 c t args → burstFrom t l →
    armed c0 (calls l c) (fst (List.last l (t, args))) (snd (List.last l (t, args))).
Proof.
  induction l as [|[t' args'] l IH]; intros c t args Harmed Hburst; [done|].
  destruct Hburst as (Hle & Hlt & Hrest). simpl in Hle, Hlt, Hrest.
  change (calls ((t', args') :: l) c) with (calls l (call c (t', args'))).
  pose proof (call_rearms c0 c t args t' args' Harmed Hle Hlt) as Hnext.
  specialize (IH _ _ _ Hnext Hrest).
  destruct l as [|x l]; [exact IH|].
  change (List.last ((t', args') :: x :: l) (t, args))
    with (List.last (x :: l) (t, args)).
  rewrite (last_nonempty x l (t, args) (t', args')). exact IH.
Qed.

(** Once the deadline has passed, [later] has run, once. *)
Lemma advance_armed_late (c0 c : Closure) (t : Z) (args : A) (t' : Z) :
  armed c0 c t args → t + Z.max wait 0 <= t' →
  Debounce.ran (advance t' c)
    = (Debounce.ran c0 ++ [(t + Z.max wait 0, args)])%list
  ∧ Debounce.world (advance t' c) = func args (Debounce.world c0)
  ∧ table (Debounce.pending (advance t' c)) = [].
Proof.
  intros (id & Htab & Hto & Hclock & Hworld & Hran) Hle.
  unfold Debounce.advance. rewrite Htab. simpl. rewrite Htab. simpl.
  destruct (t + Z.max wait 0 <=? t') eqn:E; [|lia]. simpl.
  rewrite Hto, Htab. simpl. rewrite Nat.eqb_refl. simpl.
  rewrite Hran, Hworld, Hclock.
  replace (Z.max t (t + Z.max wait 0)) with (t + Z.max wait 0) by lia.
  done.
Qed.

(** The fuel of [advance] is enough: no [later] due by [t] is left. *)
Lemma advance_settles (c : Closure) (t : Z) :
  nextDue t (table (Debounce.pending (advance t c))) = None.
Proof.
  unfold Debounce.advance. cbn [Debounce.pending].
  assert (H : ∀ fuel c0, (length (table (Debounce.pending c0)) <= fuel)%nat →
    nextDue t (table (Debounce.pending (Debounce.runPending func fuel t c0))) = None).
  { induction fuel as [|fuel IH]; intros c0 Hlen.
    - simpl. now destruct (table (Debounce.pending c0)).
    - simpl. destruct (nextDue t (table (Debounce.pending c0))) as [x|] eqn:E;
        [|exact E].
      apply IH. apply nextDue_elem in E as [Hin _].
      unfold Debounce.fire, Debounce.later. cbn [Debounce.pending Debounce.timeout].
      pose proof (clearTimeout_shrinks x (Debounce.pending c0) Hin).
      pose proof (clearTimeout_length (Debounce.timeout c0)
                    (clearTimeout (Some (tid x)) (Debounce.pending c0))).
      lia. }
  now apply H.
Qed.

End DebounceProperties.


(** ** Scroll events and the debounced wrappers *)

(** A scroll event calls both scroll functions on the spot, through the
    listeners of lines 57 and 165, whatever the debounced wrappers do. *)
Lemma scroll_calls_directly (p : Page) (s : State) (y : Z) :
  invocations (fst (dispatch p (Scroll y) s))
  = (invocations s ++ [(now s, UpdateActiveNavLink); (now s, UpdateHeader)])%list.
Proof.
  simpl. unfold onScroll, debouncedHeader, debouncedNav.
  destruct (loaded p); simpl;
    unfold updateHeader; destruct (header p); simpl;
    try destruct (50 <? y); simpl; now rewrite <- app_assoc.
Qed.

(** C4, on a burst of three scroll events at 0, 3 and 6 ms: each event
    calls [updateActiveNavLink] and [updateHeader] directly, and the
    debounced wrappers add one more call of each at 16 ms, four calls of
    each in all. *)
Theorem C4_scroll_burst_calls_each_four_times :
  invocations (run aboutPage scrollBurst (sampleState 0))
  = [(0, UpdateActiveNavLink); (0, UpdateHeader);
     (3, UpdateActiveNavLink); (3, UpdateHeader);
     (6, UpdateActiveNavLink); (6, UpdateHeader);
     (16, UpdateActiveNavLink); (16, UpdateHeader)]
  ∧ callsOf UpdateActiveNavLink (run aboutPage scrollBurst (sampleState 0)) = 4%nat
  ∧ callsOf UpdateHeader (run aboutPage scrollBurst (sampleState 0)) = 4%nat.
Proof. now vm_compute. Qed.

(** ** How a run moves the class store *)

Ltac listener_cases H :=
  unfold listenersOn in H;
  repeat match type of H with
         | context [bool_decide ?P] =>
             destruct (bool_decide_reflect P); cbn [app] in H
         | context [inPageHref ?p ?n] =>
             destruct (inPageHref p n) eqn:?; cbn [app] in H
         | context [resumeToggleBtn ?p] =>
             destruct (resumeToggleBtn p) eqn:?; cbn [app] in H
         | context [resumeContent ?p] =>
             destruct (resumeContent p) eqn:?; cbn [app] in H
         | context [mobileMenuBtn ?p] =>
             destruct (mobileMenuBtn p) eqn:?; cbn [app] in H
         | context [mobileNavLinks ?p] =>
             destruct (mobileNavLinks p) eqn:?; cbn [app] in H
         end;
  repeat (apply elem_of_cons in H as [H|H]);
  try (apply elem_of_nil in H; destruct H).

Lemma listenersOn_nav (p : Page) (n : node) (h : string) :
  NavLinkClick h ∈ listenersOn p n → inPage p n.
Proof.
  intros H. listener_cases H; try discriminate; inversion H; subst.
  all: split; [done|eauto].
Qed.

Lemma listenersOn_toggle (p : Page) (n b pn : node) :
  MenuToggle b pn ∈ listenersOn p n →
  mobileMenuBtn p = Some b ∧ mobileNavLinks p = Some pn ∧ n = b.
Proof.
  intros H. listener_cases H; try discriminate; inversion H; subst; done.
Qed.

Lemma steps_updateActiveNavLink (p : Page) (s : State) :
  rtc (storeStep p) (classes s) (classes (updateActiveNavLink p s)).
Proof.
  rewrite classes_updateActiveNavLink. generalize (classes s).
  induction (sections p) as [|sec secs IH]; intros cls; [done|].
  simpl. eapply rtc_trans; [|apply IH].
  unfold visitSection. destruct (probeInside _ _ _); [|done].
  apply rtc_once, StepMark.
Qed.

Lemma steps_navLinkClick (p : Page) (this : node) (h : string) (s : State) :
  inPage p this →
  rtc (storeStep p) (classes s) (classes (fst (navLinkClick p this h s))).
Proof.
  intros Hin. unfold navLinkClick. simpl.
  destruct (querySelector p h); [|done|done].
  destruct (querySelector p ".nav-container"); [|done|done].
  simpl. now apply rtc_once, StepActivate.
Qed.

Lemma steps_runListener (p : Page) (n : node) (acc : State * bool) (l : Listener) :
  l ∈ listenersOn p n →
  rtc (storeStep p) (classes (fst acc)) (classes (fst (runListener p n acc l))).
Proof.
  intros Hl. destruct l as [h|b c|b pn|b pn|]; cbn [runListener fst].
  - pose proof (steps_navLinkClick p n h (fst acc) (listenersOn_nav p n h Hl)) as H.
    now destruct (navLinkClick p n h (fst acc)).
  - unfold resumeToggle. now destruct (negb _).
  - apply listenersOn_toggle in Hl as (Hb & Hpn & _).
    now apply rtc_once, StepToggle.
  - apply rtc_once, StepClose.
  - done.
Qed.

Lemma steps_listeners (p : Page) (n : node) (ls : list Listener) :
  ∀ acc, (∀ l, l ∈ ls → l ∈ listenersOn p n) →
  rtc (storeStep p) (classes (fst acc))
    (classes (fst (fold_left (runListener p n) ls acc))).
Proof.
  induction ls as [|l ls IH]; intros acc Hls; [done|].
  simpl. eapply rtc_trans.
  - apply steps_runListener, Hls. left.
  - apply IH. intros l' Hl'. apply Hls. now right.
Qed.

Lemma steps_clickAt (p : Page) (n : node) (acc : State * bool) :
  rtc (storeStep p) (classes (fst acc)) (classes (fst (clickAt p acc n))).
Proof. apply steps_listeners. auto. Qed.

Lemma steps_path (p : Page) (ns : list node) :
  ∀ acc, rtc (storeStep p) (classes (fst acc))
           (classes (fst (fold_left (clickAt p) ns acc))).
Proof.
  induction ns as [|n ns IH]; intros acc; [done|].
  simpl. eapply rtc_trans; [apply steps_clickAt | apply IH].
Qed.

Lemma steps_dispatchClick (p : Page) (tgt : node) (s : State) :
  rtc (storeStep p) (classes s) (classes (fst (dispatchClick p tgt s))).
Proof.
  unfold dispatchClick.
  pose proof (steps_path p (path p tgt) (s, false)) as H. simpl in H.
  destruct (mobileMenuBtn p) as [b|]; [|exact H].
  destruct (mobileNavLinks p) as [pn|]; [|exact H].
  simpl. eapply rtc_trans; [exact H|].
  unfold outsideClick. destruct (negb _ && negb _); [|done].
  apply rtc_once, StepClose.
Qed.

Lemma steps_observerCallback (p : Page) (entries : list Entry) :
  ∀ s, rtc (storeStep p) (classes s) (classes (observerCallback entries s)).
Proof.
  unfold observerCallback.
  induction entries as [|e entries IH]; intros s; [done|].
  simpl. eapply rtc_trans; [|apply IH].
  unfold reveal. destruct (isIntersecting e); [|done].
  apply rtc_once, StepReveal.
Qed.

Lemma steps_onScroll (p : Page) (s : State) :
  rtc (storeStep p) (classes s) (classes (onScroll p s)).
Proof.
  rewrite classes_onScroll.
  apply (steps_updateActiveNavLink p (recordCall UpdateActiveNavLink s)).
Qed.

Lemma steps_dispatch (p : Page) (e : Event) (s : State) :
  rtc (storeStep p) (classes s) (classes (fst (dispatch p e s))).
Proof.
  destruct e; simpl; try done.
  - apply steps_dispatchClick.
  - apply (steps_onScroll p (setView (withScrollY y (view s)) s)).
  - apply steps_observerCallback.
  - now destruct (loaded p).
  - destruct (loaded p); [|done]. unfold touchMove. now destruct (_ || _).
  - now destruct (bool_decide _).
  - now destruct (bool_decide _).
Qed.

Lemma steps_fireTask (p : Page) (tk : Task) (s : State) :
  rtc (storeStep p) (classes s) (classes (fireTask p tk s)).
Proof.
  destruct tk; simpl.
  - unfold laterNav.
    apply (steps_updateActiveNavLink p
             (recordCall UpdateActiveNavLink
                (setTimers (clearTimeout (navTimeout s) (timers s)) s))).
  - unfold laterHeader. now rewrite classes_updateHeader.
  - unfold typeWriter. destruct (heroSubtitle p); [|done].
    now destruct (_ <? _)%nat.
Qed.

Lemma steps_runDue (p : Page) (fuel : nat) (t : Z) :
  ∀ s, rtc (storeStep p) (classes s) (classes (runDue p fuel t s)).
Proof.
  induction fuel as [|fuel IH]; intros s; [done|].
  simpl. destruct (nextDue t (table (timers s))) as [x|]; [|done].
  eapply rtc_trans; [|apply IH].
  unfold fireTimer.
  apply (steps_fireTask p (task x)
           (setNow _ (setTimers (clearTimeout (Some (tid x)) (timers s)) s))).
Qed.

Lemma steps_step (p : Page) (s : State) (te : Z * Event) :
  rtc (storeStep p) (classes s) (classes (step p s te)).
Proof.
  unfold step. eapply rtc_trans; [apply (steps_runDue p (fuelFor p s) (fst te) s)|].
  apply (steps_dispatch p (snd te)
           (setNow (Z.max (now (runDue p (fuelFor p s) (fst te) s)) (fst te))
              (runDue p (fuelFor p s) (fst te) s))).
Qed.

(** Every run moves the class store along a chain of [storeStep]s. *)
Lemma steps_run (p : Page) (evs : list (Z * Event)) :
  ∀ s, rtc (storeStep p) (classes s) (classes (run p evs s)).
Proof.
  unfold run. induction evs as [|te evs IH]; intros s; [done|].
  simpl. eapply rtc_trans; [apply steps_step | apply IH].
Qed.

(** ** RevealObserver *)

(** No step of the store takes away a class other than [active]. *)
Lemma storeStep_keeps (p : Page) (cls cls' : node → ClassList) (m : node)
    (d : string) :
  storeStep p cls cls' → d ≠ "active" → d ∈ cls m → d ∈ cls' m.
Proof.
  intros Hstep Hd Hin. destruct Hstep.
  - rewrite elem_classAdd, elem_clearActive. tauto.
  - rewrite elem_markLinks. tauto.
  - rewrite !elem_classToggle. tauto.
  - rewrite !elem_classRemove. tauto.
  - rewrite !elem_classAdd. tauto.
Qed.

Lemma storeSteps_keep (p : Page) (cls cls' : node → ClassList) (m : node)
    (d : string) :
  rtc (storeStep p) cls cls' → d ≠ "active" → d ∈ cls m → d ∈ cls' m.
Proof.
  intros Hsteps Hd. induction Hsteps as [|x y z Hxy _ IH]; [done|].
  intros Hin. apply IH. eapply storeStep_keeps; eauto.
Qed.

Lemma reveal_grows (s : State) (e : Entry) (m : node) (d : string) :
  d ∈ classes s m → d ∈ classes (reveal s e) m.
Proof.
  unfold reveal. destruct (isIntersecting e); [|done].
  simpl. rewrite !elem_classAdd. tauto.
Qed.

Lemma observerCallback_grows (entries : list Entry) (m : node) (d : string) :
  ∀ s, d ∈ classes s m → d ∈ classes (observerCallback entries s) m.
Proof.
  unfold observerCallback.
  induction entries as [|e entries IH]; intros s Hin; [done|].
  simpl. apply IH, reveal_grows, Hin.
Qed.

Lemma observerCallback_reveals (entries : list Entry) (n : node) :
  ∀ s, mkEntry n true ∈ entries → revealed (observerCallback entries s) n.
Proof.
  induction entries as [|e entries IH]; intros s Hin.
  - now apply elem_of_nil in Hin.
  - apply elem_of_cons in Hin as [<-|Hin].
    + change (observerCallback (mkEntry n true :: entries) s)
        with (observerCallback entries (reveal s (mkEntry n true))).
      split; apply observerCallback_grows; simpl; rewrite !elem_classAdd; tauto.
    + apply (IH (reveal s e) Hin).
Qed.

(** C7: an intersection notification in which the element is intersecting
    marks it revealed, and once an element is revealed it stays revealed
    through every later sequence of events, whatever they are: clicks,
    scrolls, timers, further notifications in which it no longer
    intersects. *)
Theorem C7_revealed_is_permanent (p : Page) (n : node) :
  (∀ (s : State) (entries : list Entry),
     mkEntry n true ∈ entries →
     revealed (fst (dispatch p (Intersection entries) s)) n)
  ∧ (∀ (s : State) (evs : list (Z * Event)),
       revealed s n → revealed (run p evs s) n).
Proof.
  split.
  - intros s entries Hin. now apply observerCallback_reveals.
  - intros s evs [Hf Hv].
    split; eapply storeSteps_keep; eauto using steps_run; discriminate.
Qed.

Lemma C7_revealed_is_permanent_witness :
  revealed
    (run aboutPage afterReveal
       (fst (dispatch aboutPage (Intersection [mkEntry 10%nat true]) (sampleState 0))))
    10%nat.
Proof.
  apply (proj2 (C7_revealed_is_permanent aboutPage 10%nat)).
  apply (proj1 (C7_revealed_is_permanent aboutPage 10%nat)).
  apply list_elem_of_singleton. reflexivity.
Defined.

(** ** NavSync *)

Lemma storeStep_single (p : Page) (cls cls' : node → ClassList) :
  distinctHrefs p → menuApart p → storeStep p cls cls' →
  (∀ l1 l2, inPage p l1 → inPage p l2 →
     "active" ∈ cls l1 → "active" ∈ cls l2 → l1 = l2) →
  ∀ l1 l2, inPage p l1 → inPage p l2 →
    "active" ∈ cls' l1 → "active" ∈ cls' l2 → l1 = l2.
Proof.
  intros Hdist Hapart Hstep Hone l1 l2 H1 H2.
  destruct Hstep as [cls this Hthis|cls sec|cls b pn Hb Hpn|cls b pn|cls n].
  - rewrite !elem_classAdd, !elem_clearActive.
    destruct H1 as [H1 _], H2 as [H2 _]. intros [?|[-> _]] [?|[-> _]]; tauto.
  - rewrite !elem_markLinks.
    intros [[_ A1]|(_ & _ & A1)] [[_ A2]|(_ & _ & A2)];
      try (destruct H1 as [H1 _]; tauto); try (destruct H2 as [H2 _]; tauto).
    apply Hdist; congruence.
  - destruct (Hapart b pn Hb Hpn) as [Nb Npn].
    rewrite !elem_classToggle.
    intros [[[[A1 _]|(-> & _)] _]|(-> & _)] [[[[A2 _]|(-> & _)] _]|(-> & _)];
      try tauto.
    now apply Hone.
  - rewrite !elem_classRemove. intros [[A1 _] _] [[A2 _] _]. now apply Hone.
  - rewrite !elem_classAdd.
    intros [[A1|[_ ?]]|[_ ?]] [[A2|[_ ?]]|[_ ?]]; try discriminate.
    now apply Hone.
Qed.

Lemma storeSteps_single (p : Page) (cls cls' : node → ClassList) :
  distinctHrefs p → menuApart p → rtc (storeStep p) cls cls' →
  (∀ l1 l2, inPage p l1 → inPage p l2 →
     "active" ∈ cls l1 → "active" ∈ cls l2 → l1 = l2) →
  ∀ l1 l2, inPage p l1 → inPage p l2 →
    "active" ∈ cls' l1 → "active" ∈ cls' l2 → l1 = l2.
Proof.
  intros Hdist Hapart Hsteps. induction Hsteps as [|x y z Hxy _ IH]; [done|].
  intros Hone. apply IH. now apply (storeStep_single p x y).
Qed.

Lemma atMostOneActive_store (p : Page) (s : State) :
  atMostOneActive p s ↔
  ∀ l1 l2, inPage p l1 → inPage p l2 →
    "active" ∈ classes s l1 → "active" ∈ classes s l2 → l1 = l2.
Proof.
  unfold atMostOneActive. split; intros H l1 l2 H1 H2 A1 A2.
  - apply H; try done; now apply isActive_true.
  - apply H; try done; now apply isActive_true.
Qed.

(** What a click on an in-page link leaves active among the nav links: the
    clicked link alone, unless the listener gave up before touching them. *)
Lemma navLinkClick_active (p : Page) (this : node) (h : string) (s : State)
    (l : node) :
  l ∈ navLinks p →
  classes (fst (navLinkClick p this h s)) = classes s
  ∨ (isActive (fst (navLinkClick p this h s)) l = true ↔ l = this).
Proof.
  intros Hl. unfold navLinkClick. simpl.
  destruct (querySelector p h); [|now left|now left].
  destruct (querySelector p ".nav-container"); [|now left|now left].
  right. rewrite isActive_true. simpl. rewrite elem_classAdd, elem_clearActive.
  split; [intros [[_ H]|[H _]]; tauto | intros ->; tauto].
Qed.

(** What the scroll update leaves active among the nav links. *)
Lemma updateActiveNavLink_active (p : Page) (s : State) (l : node) :
  l ∈ navLinks p →
  match lastInside (view s) (scrollY (view s) + 100) (sections p) with
  | None => isActive (updateActiveNavLink p s) l = isActive s l
  | Some sec => isActive (updateActiveNavLink p s) l = true
                ↔ hrefAttr p l = Some (hashOf (idAttr p sec))
  end.
Proof.
  intros Hl.
  pose proof (elem_visitSections p (view s) (scrollY (view s) + 100)
                (sections p) (classes s) l "active") as H.
  rewrite <- classes_updateActiveNavLink in H.
  destruct (lastInside _ _ _) as [sec|].
  - rewrite isActive_true, H. tauto.
  - now apply isActive_ext.
Qed.

(** C2 as worded fails: with two nav links that point at the same section,
    one scroll event over that section leaves both active. *)
Lemma C2_twin_links_counterexample : ¬ singleActiveAlways.
Proof.
  intros H.
  specialize (H twinPage (sampleState 0) [(0, Scroll 0)]).
  assert (H12 : 1%nat = 2%nat); [|discriminate].
  apply H.
  - intros l1 l2 _ _ A. now vm_compute in A.
  - split; [apply (bool_decide_unpack _); now vm_compute | now exists "#about"].
  - split; [apply (bool_decide_unpack _); now vm_compute | now exists "#about"].
  - now vm_compute.
  - now vm_compute.
Qed.

(** C2 (amended): on a page whose in-page nav links have pairwise distinct
    hrefs and whose menu button and menu panel are not in-page nav links,
    a run that starts with at most one active in-page link never reaches a
    state with two.  The click listener, when it touches the links at all,
    leaves the clicked link as the only active nav link; the scroll update
    leaves active exactly the nav links whose href is [#] followed by the
    id of the last section under the probe, and changes no link when the
    probe is in no section. *)
Theorem C2_single_active_link (p : Page) :
  (distinctHrefs p → menuApart p →
   ∀ (s : State) (evs : list (Z * Event)),
     atMostOneActive p s → atMostOneActive p (run p evs s))
  ∧ (∀ (this : node) (h : string) (s : State) (l : node),
       l ∈ navLinks p →
       classes (fst (navLinkClick p this h s)) = classes s
       ∨ (isActive (fst (navLinkClick p this h s)) l = true ↔ l = this))
  ∧ (∀ (s : State) (l : node),
       l ∈ navLinks p →
       match lastInside (view s) (scrollY (view s) + 100) (sections p) with
       | None => isActive (updateActiveNavLink p s) l = isActive s l
       | Some sec => isActive (updateActiveNavLink p s) l = true
                     ↔ hrefAttr p l = Some (hashOf (idAttr p sec))
       end).
Proof.
  split; [|split].
  - intros Hdist Hapart s evs Hone.
    apply (proj2 (atMostOneActive_store p (run p evs s))).
    pose proof (proj1 (atMostOneActive_store p s) Hone) as Hstore.
    exact (storeSteps_single p _ _ Hdist Hapart (steps_run p evs s) Hstore).
  - apply navLinkClick_active.
  - apply updateActiveNavLink_active.
Qed.

Lemma C2_single_active_link_witness :
  atMostOneActive (samplePage (Some "#about") (Some "#work") (Some "about"))
    (run (samplePage (Some "#about") (Some "#work") (Some "about"))
       [(0, Click 2%nat); (5, Scroll 0); (30, Idle)] (linkOneActive 0)).
Proof.
  apply (proj1 (C2_single_active_link
                  (samplePage (Some "#about") (Some "#work") (Some "about")))).
  - intros l1 l2 [H1 _] [H2 _].
    apply elem_of_cons in H1 as [->|H1]; [|apply list_elem_of_singleton in H1 as ->];
      (apply elem_of_cons in H2 as [->|H2]; [|apply list_elem_of_singleton in H2 as ->]);
      simpl; intros E; (reflexivity || discriminate E).
  - intros b pn Hb. discriminate Hb.
  - intros l1 l2 [H1 _] [H2 _].
    apply elem_of_cons in H1 as [->|H1]; [|apply list_elem_of_singleton in H1 as ->];
      (apply elem_of_cons in H2 as [->|H2]; [|apply list_elem_of_singleton in H2 as ->]);
      intros A1 A2; (reflexivity || (vm_compute in A2; discriminate A2)
                     || (vm_compute in A1; discriminate A1)).
Defined.

(** ** Elements a listener leaves alone *)

Lemma classAdd_other (n m : node) (c : string) (cls : node → ClassList) :
  m ≠ n → classAdd n c cls m = cls m.
Proof. intros H. unfold classAdd. now destruct (decide (m = n)). Qed.

Lemma classRemove_other (n m : node) (c : string) (cls : node → ClassList) :
  m ≠ n → classRemove n c cls m = cls m.
Proof. intros H. unfold classRemove. now destruct (decide (m = n)). Qed.

Lemma classToggle_other (n m : node) (c : string) (cls : node → ClassList) :
  m ≠ n → classToggle n c cls m = cls m.
Proof.
  intros H. unfold classToggle.
  destruct (decide (c ∈ cls n)); [now apply classRemove_other | now apply classAdd_other].
Qed.

Lemma classRemove_absent (n m : node) (c : string) (cls : node → ClassList) :
  c ∉ cls m → classRemove n c cls m = cls m.
Proof.
  intros H. apply set_eq. intros d. rewrite elem_classRemove.
  split; [tauto|]. intros Hd. split; [done|]. intros [_ ->]. tauto.
Qed.

Lemma clearActive_other (p : Page) (cls : node → ClassList) (m : node) :
  m ∉ navLinks p → clearActive p cls m = cls m.
Proof. intros H. apply set_eq. intros d. rewrite elem_clearActive. tauto. Qed.

Lemma updateActiveNavLink_other (p : Page) (s : State) (m : node) :
  m ∉ navLinks p → classes (updateActiveNavLink p s) m = classes s m.
Proof.
  intros H. apply set_eq. intros d.
  rewrite classes_updateActiveNavLink, elem_visitSections.
  destruct (lastInside _ _ _); tauto.
Qed.

Lemma fireTask_other (p : Page) (tk : Task) (s : State) (m : node) :
  m ∉ navLinks p → classes (fireTask p tk s) m = classes s m.
Proof.
  intros H. destruct tk; cbn [fireTask].
  - unfold laterNav. now rewrite updateActiveNavLink_other.
  - unfold laterHeader. now rewrite classes_updateHeader.
  - unfold typeWriter. destruct (heroSubtitle p); [|done].
    now destruct (_ <? _)%nat.
Qed.

Lemma runDue_other (p : Page) (fuel : nat) (t : Z) (m : node) :
  m ∉ navLinks p → ∀ s, classes (runDue p fuel t s) m = classes s m.
Proof.
  intros H. induction fuel as [|fuel IH]; intros s; [done|].
  simpl. destruct (nextDue t (table (timers s))) as [x|]; [|done].
  rewrite IH. unfold fireTimer. now rewrite fireTask_other.
Qed.

(** ** MobileMenu *)

Lemma listenersOn_close (p : Page) (n b pn : node) :
  MenuClose b pn ∈ listenersOn p n →
  mobileMenuBtn p = Some b ∧ mobileNavLinks p = Some pn ∧ n ∈ menuAnchors p.
Proof.
  intros H. listener_cases H; try discriminate; inversion H; subst; done.
Qed.

Section MobileMenu.
Variable p : Page.
Variables b pn : node.
Hypothesis Hb : mobileMenuBtn p = Some b.
Hypothesis Hpn : mobileNavLinks p = Some pn.
Hypothesis Hne : b ≠ pn.
Hypothesis Hnav : pn ∉ navLinks p.

Lemma navLinkClick_panel (this : node) (h : string) (s : State) :
  this ∈ navLinks p →
  classes (fst (navLinkClick p this h s)) pn = classes s pn.
Proof.
  intros Hthis. unfold navLinkClick. simpl.
  destruct (querySelector p h); [|done|done].
  destruct (querySelector p ".nav-container"); [|done|done].
  simpl. rewrite classAdd_other by (intros ->; tauto).
  now apply clearActive_other.
Qed.

Lemma runListener_panel (n : node) (acc : State * bool) (l : Listener) :
  l ∈ listenersOn p n →
  classes (fst (runListener p n acc l)) pn = panelEffect (classes (fst acc) pn) l.
Proof.
  intros Hl. destruct l as [h|b' c|b' pn'|b' pn'|]; cbn [runListener panelEffect].
  - apply listenersOn_nav in Hl as [Hn _].
    pose proof (navLinkClick_panel n h (fst acc) Hn) as H.
    now destruct (navLinkClick p n h (fst acc)).
  - unfold resumeToggle. now destruct (negb _).
  - apply listenersOn_toggle in Hl as (Hb' & Hpn' & _).
    assert (b' = b) as -> by congruence. assert (pn' = pn) as -> by congruence.
    cbn [fst menuToggle classes setClasses].
    rewrite classToggle_other by congruence.
    unfold classToggle, toggled, classRemove, classAdd.
    destruct (decide ("active" ∈ classes (fst acc) pn));
      now destruct (decide (pn = pn)).
  - apply listenersOn_close in Hl as (Hb' & Hpn' & _).
    assert (b' = b) as -> by congruence. assert (pn' = pn) as -> by congruence.
    cbn [fst menuClose classes setClasses].
    rewrite classRemove_other by congruence.
    unfold classRemove. now destruct (decide (pn = pn)).
  - done.
Qed.

Lemma listeners_panel (n : node) (ls : list Listener) :
  ∀ acc, (∀ l, l ∈ ls → l ∈ listenersOn p n) →
  classes (fst (fold_left (runListener p n) ls acc)) pn
  = fold_left panelEffect ls (classes (fst acc) pn).
Proof.
  induction ls as [|l ls IH]; intros acc Hls; [done|].
  simpl. rewrite IH by (intros l' Hl'; apply Hls; now right).
  rewrite runListener_panel by (apply Hls; left). done.
Qed.

(** One element of the propagation path: the button toggles the panel, a
    menu link closes it, and when an element is both the closing comes
    last. *)
Lemma clickAt_panel (acc : State * bool) (n : node) :
  classes (fst (clickAt p acc n)) pn
  = (if bool_decide (n ∈ menuAnchors p)
     then (if bool_decide (n = b) then toggled (classes (fst acc) pn)
           else classes (fst acc) pn) ∖ {[ "active" ]}
     else (if bool_decide (n = b) then toggled (classes (fst acc) pn)
           else classes (fst acc) pn)).
Proof.
  unfold clickAt. rewrite listeners_panel by auto.
  unfold listenersOn. rewrite Hb, Hpn.
  destruct (bool_decide (n ∈ navLinks p)), (inPageHref p n),
    (resumeToggleBtn p), (resumeContent p), (bool_decide (n = b)),
    (bool_decide (n ∈ menuAnchors p)), (bool_decide (n ∈ projectLinks p));
    try destruct (bool_decide (n = _)); reflexivity.
Qed.

(** Elements other than the button and the menu links leave the panel
    alone. *)
Lemma path_inert (ns : list node) :
  b ∉ ns → (∀ l, l ∈ menuAnchors p → l ∉ ns) →
  ∀ acc, classes (fst (fold_left (clickAt p) ns acc)) pn = classes (fst acc) pn.
Proof.
  induction ns as [|n ns IH]; intros Hbn Hanch acc; [done|].
  simpl. rewrite IH.
  - rewrite clickAt_panel.
    rewrite (bool_decide_eq_false_2 (n ∈ menuAnchors p))
      by (intros H; apply (Hanch n H); left).
    rewrite (bool_decide_eq_false_2 (n = b)) by (intros ->; apply Hbn; left).
    done.
  - intros H. apply Hbn. now right.
  - intros l Hl H. apply (Hanch l Hl). now right.
Qed.

(** Without the button on the path a closed panel is left as it is. *)
Lemma path_stays_closed (ns : list node) :
  b ∉ ns →
  ∀ acc, "active" ∉ classes (fst acc) pn →
    classes (fst (fold_left (clickAt p) ns acc)) pn = classes (fst acc) pn.
Proof.
  induction ns as [|n ns IH]; intros Hbn acc Hclosed; [done|].
  assert (Hstep : classes (fst (clickAt p acc n)) pn = classes (fst acc) pn).
  { rewrite clickAt_panel.
    rewrite (bool_decide_eq_false_2 (n = b)) by (intros ->; apply Hbn; left).
    destruct (bool_decide (n ∈ menuAnchors p)); [|done].
    apply set_eq. intros d. rewrite elem_of_difference, elem_of_singleton.
    split; [tauto|]. intros Hd. split; [done|]. now intros ->. }
  simpl. rewrite IH; [done | | now rewrite Hstep].
  intros H. apply Hbn. now right.
Qed.

(** With a menu link on the path, and not the button, the panel ends up
    closed. *)
Lemma path_closes (ns : list node) (l : node) :
  b ∉ ns → l ∈ menuAnchors p → l ∈ ns →
  ∀ acc, "active" ∉ classes (fst (fold_left (clickAt p) ns acc)) pn.
Proof.
  induction ns as [|n ns IH]; intros Hbn Hl Hin acc.
  - now apply elem_of_nil in Hin.
  - assert (Hbns : b ∉ ns) by (intros H; apply Hbn; now right).
    simpl. apply elem_of_cons in Hin as [<-|Hin]; [|now apply IH].
    assert (Hclosed : "active" ∉ classes (fst (clickAt p acc l)) pn).
    { rewrite clickAt_panel, (bool_decide_eq_true_2 (l ∈ menuAnchors p)) by done.
      rewrite elem_of_difference, elem_of_singleton. tauto. }
    now rewrite path_stays_closed.
Qed.

(** With the button on the path, once, and no menu link, the panel is
    toggled. *)
Lemma path_toggles (ns : list node) :
  NoDup ns → b ∈ ns → (∀ l, l ∈ menuAnchors p → l ∉ ns) →
  ∀ acc, classes (fst (fold_left (clickAt p) ns acc)) pn
         = toggled (classes (fst acc) pn).
Proof.
  induction ns as [|n ns IH]; intros Hnd Hin Hanch acc.
  - now apply elem_of_nil in Hin.
  - apply NoDup_cons in Hnd as [Hn Hnd].
    assert (Hanch' : ∀ l, l ∈ menuAnchors p → l ∉ ns).
    { intros l Hl H. apply (Hanch l Hl). now right. }
    assert (Hnot : bool_decide (n ∈ menuAnchors p) = false).
    { apply bool_decide_eq_false_2. intros H. apply (Hanch n H). left. }
    simpl. apply elem_of_cons in Hin as [<-|Hin].
    + rewrite path_inert by done.
      now rewrite clickAt_panel, Hnot, bool_decide_eq_true_2.
    + rewrite IH by done.
      rewrite clickAt_panel, Hnot, bool_decide_eq_false_2; [done|].
      now intros ->.
Qed.

Lemma dispatchClick_panel (tgt : node) (s : State) :
  classes (fst (dispatchClick p tgt s)) pn
  = (if negb (contains p b tgt) && negb (contains p pn tgt)
     then classes (fst (fold_left (clickAt p) (path p tgt) (s, false))) pn
            ∖ {[ "active" ]}
     else classes (fst (fold_left (clickAt p) (path p tgt) (s, false))) pn).
Proof.
  unfold dispatchClick. rewrite Hb, Hpn. cbn [fst]. unfold outsideClick.
  destruct (negb (contains p b tgt) && negb (contains p pn tgt)); [|done].
  cbn [menuClose classes setClasses].
  rewrite classRemove_other by congruence.
  unfold classRemove. now destruct (decide (pn = pn)).
Qed.

Lemma click_outside (tgt : node) (s : State) :
  b ∉ path p tgt → pn ∉ path p tgt →
  ("active" ∉ classes (fst (dispatchClick p tgt s)) pn)
  ∧ ("active" ∉ classes s pn →
     classes (fst (dispatchClick p tgt s)) pn = classes s pn).
Proof.
  intros Hbt Hpt. rewrite dispatchClick_panel. unfold contains.
  rewrite !bool_decide_eq_false_2 by done. cbn [negb andb].
  split.
  - rewrite elem_of_difference, elem_of_singleton. tauto.
  - intros Hclosed. rewrite path_stays_closed by done. cbn [fst].
    apply set_eq. intros d. rewrite elem_of_difference, elem_of_singleton.
    split; [tauto|]. intros Hd. split; [done|]. now intros ->.
Qed.

Lemma click_link (tgt l : node) (s : State) :
  l ∈ menuAnchors p → l ∈ path p tgt → b ∉ path p tgt →
  "active" ∉ classes (fst (dispatchClick p tgt s)) pn.
Proof.
  intros Hl Hin Hbt. rewrite dispatchClick_panel.
  pose proof (path_closes (path p tgt) l Hbt Hl Hin (s, false)) as H.
  destruct (negb _ && negb _); [|done].
  rewrite elem_of_difference. tauto.
Qed.

Lemma click_toggle (tgt : node) (s : State) :
  NoDup (path p tgt) → b ∈ path p tgt →
  (∀ l, l ∈ menuAnchors p → l ∉ path p tgt) →
  classes (fst (dispatchClick p tgt s)) pn = toggled (classes s pn).
Proof.
  intros Hnd Hbt Hanch. rewrite dispatchClick_panel. unfold contains.
  rewrite (bool_decide_eq_true_2 (b ∈ path p tgt)) by done. cbn [negb andb].
  now rewrite path_toggles.
Qed.

(** A click at time [t]: the timers that run first do not reach the
    panel. *)
Lemma step_click_panel (s : State) (t : Z) (tgt : node) :
  ∃ s', classes s' pn = classes s pn
        ∧ step p s (t, Click tgt) = fst (dispatchClick p tgt s').
Proof.
  exists (setNow (Z.max (now (runDue p (fuelFor p s) t s)) t)
            (runDue p (fuelFor p s) t s)).
  split; [|done]. cbn [classes setNow]. now apply runDue_other.
Qed.

Lemma toggled_open (X : ClassList) : "active" ∉ X → "active" ∈ toggled X.
Proof.
  intros H. unfold toggled. destruct (decide ("active" ∈ X)); [done|].
  apply elem_of_union. right. now apply elem_of_singleton.
Qed.

(** The menu's own listeners on a menu link come after the link's click
    listener. *)
Lemma link_listener_first (l : node) (h : string) :
  l ∈ menuAnchors p → l ∈ navLinks p → inPageHref p l = Some h →
  ∃ mid post, listenersOn p l
              = (NavLinkClick h :: mid ++ MenuClose b pn :: post)%list.
Proof.
  intros Hl Hn Hh. unfold listenersOn. rewrite Hb, Hpn, Hh.
  rewrite (bool_decide_eq_true_2 (l ∈ navLinks p)) by done.
  rewrite (bool_decide_eq_true_2 (l ∈ menuAnchors p)) by done.
  destruct (resumeToggleBtn p) as [rb|]; [destruct (resumeContent p) as [rc|]|];
    try destruct (bool_decide (l = rb)); destruct (bool_decide (l = b));
    cbn [app];
    first [ eexists [], _; reflexivity
          | eexists [_], _; reflexivity
          | eexists [_; _], _; reflexivity ].
Qed.
End MobileMenu.

Lemma menuOpen_true (s : State) (pn : node) :
  menuOpen s pn = true ↔ "active" ∈ classes s pn.
Proof. unfold menuOpen, hasClass. apply bool_decide_eq_true. Qed.

Lemma menuOpen_false (s : State) (pn : node) :
  menuOpen s pn = false ↔ "active" ∉ classes s pn.
Proof. unfold menuOpen, hasClass. apply bool_decide_eq_false. Qed.

(** C8 as worded fails: with the menu button around the panel, a click on
    a link of the menu first closes the menu (the link's listener), then
    reaches the button on its way up and toggles it open again, and the
    listener of the document keeps out because the target is inside the
    button. *)
Lemma C8_button_around_panel_counterexample : ¬ menuLinkClickCloses.
Proof.
  intros H.
  specialize (H wrappedMenuPage 6%nat 5%nat 1%nat (sampleState 0) 0
                eq_refl eq_refl).
  assert (Hopen : menuOpen (step wrappedMenuPage (sampleState 0) (0, Click 1%nat))
                    5%nat = true) by now vm_compute.
  rewrite H in Hopen; [discriminate| | | |].
  - apply (bool_decide_unpack _). now vm_compute.
  - apply (bool_decide_unpack _). now vm_compute.
  - apply (bool_decide_unpack _). now vm_compute.
  - apply (bool_decide_unpack _). now vm_compute.
Qed.

(** On that page a click on a menu link leaves the menu open, whether it
    was closed or open before. *)
Example wrapped_menu_link_click_opens :
  menuOpen (sampleState 0) 5%nat = false
  ∧ menuOpen (step wrappedMenuPage (sampleState 0) (0, Click 1%nat)) 5%nat = true
  ∧ menuOpen menuShown 5%nat = true
  ∧ menuOpen (step wrappedMenuPage menuShown (0, Click 1%nat)) 5%nat = true.
Proof. now vm_compute. Qed.

(** When one element is both the menu button and the panel, a click on it
    toggles its class twice and the menu never opens. *)
Example one_element_menu_stays_closed :
  menuOpen (sampleState 0) 5%nat = false
  ∧ menuOpen (step oneElementMenuPage (sampleState 0) (0, Click 5%nat)) 5%nat
    = false.
Proof. now vm_compute. Qed.

(** C8 (amended): for a page with a menu button [b] and a menu panel [pn],
    two different elements, the panel being the container of the nav links
    and not one of them.
    - A click outside both forces the menu closed, and when the menu is
      closed already the panel is left exactly as it is.
    - A click on a menu link that does not pass through the button forces
      the menu closed whatever its state was; on the link, the menu's
      closing listener runs after the link's own click listener.
    - Starting closed, the sequence button, outside, button, menu link goes
      open, closed, open, closed, when the click on the button meets no
      menu link and the click on the link does not pass through the
      button.
    Events may arrive at any times, with timers running in between. *)
Theorem C8_mobile_menu (p : Page) (b pn : node) :
  mobileMenuBtn p = Some b → mobileNavLinks p = Some pn →
  b ≠ pn → pn ∉ navLinks p →
  (∀ (s : State) (t : Z) (tgt : node),
     b ∉ path p tgt → pn ∉ path p tgt →
     menuOpen (step p s (t, Click tgt)) pn = false
     ∧ (menuOpen s pn = false →
        classes (step p s (t, Click tgt)) pn = classes s pn))
  ∧ (∀ (s : State) (t : Z) (tgt l : node),
       l ∈ menuAnchors p → l ∈ path p tgt → b ∉ path p tgt →
       menuOpen (step p s (t, Click tgt)) pn = false)
  ∧ (∀ (l : node) (h : string),
       l ∈ menuAnchors p → l ∈ navLinks p → inPageHref p l = Some h →
       ∃ mid post, listenersOn p l
                   = (NavLinkClick h :: mid ++ MenuClose b pn :: post)%list)
  ∧ (∀ (s0 : State) (t1 t2 t3 t4 : Z) (onBtn outside onLink l : node),
       menuOpen s0 pn = false →
       NoDup (path p onBtn) → b ∈ path p onBtn →
       (∀ a, a ∈ menuAnchors p → a ∉ path p onBtn) →
       b ∉ path p outside → pn ∉ path p outside →
       l ∈ menuAnchors p → l ∈ path p onLink → b ∉ path p onLink →
       menuOpen (run p [(t1, Click onBtn)] s0) pn = true
       ∧ menuOpen (run p [(t1, Click onBtn); (t2, Click outside)] s0) pn = false
       ∧ menuOpen (run p [(t1, Click onBtn); (t2, Click outside);
                          (t3, Click onBtn)] s0) pn = true
       ∧ menuOpen (run p [(t1, Click onBtn); (t2, Click outside);
                          (t3, Click onBtn); (t4, Click onLink)] s0) pn = false).
Proof.
  intros Hb Hpn Hne Hnav.
  assert (Houtside : ∀ (s : State) (t : Z) (tgt : node),
     b ∉ path p tgt → pn ∉ path p tgt →
     menuOpen (step p s (t, Click tgt)) pn = false
     ∧ (menuOpen s pn = false →
        classes (step p s (t, Click tgt)) pn = classes s pn)).
  { intros s t tgt Hbt Hpt.
    destruct (step_click_panel p pn Hnav s t tgt) as (s' & Hs' & ->).
    destruct (click_outside p b pn Hb Hpn Hne Hnav tgt s' Hbt Hpt) as [H1 H2].
    split; [now apply menuOpen_false|].
    intros Hclosed. apply menuOpen_false in Hclosed.
    rewrite <- Hs' in Hclosed. now rewrite H2. }
  assert (Hlink : ∀ (s : State) (t : Z) (tgt l : node),
       l ∈ menuAnchors p → l ∈ path p tgt → b ∉ path p tgt →
       menuOpen (step p s (t, Click tgt)) pn = false).
  { intros s t tgt l Hl Hin Hbt.
    destruct (step_click_panel p pn Hnav s t tgt) as (s' & Hs' & ->).
    apply menuOpen_false.
    exact (click_link p b pn Hb Hpn Hne Hnav tgt l s' Hl Hin Hbt). }
  assert (Htoggle : ∀ (s : State) (t : Z) (tgt : node),
       NoDup (path p tgt) → b ∈ path p tgt →
       (∀ a, a ∈ menuAnchors p → a ∉ path p tgt) →
       menuOpen s pn = false → menuOpen (step p s (t, Click tgt)) pn = true).
  { intros s t tgt Hnd Hbt Hanch Hclosed.
    destruct (step_click_panel p pn Hnav s t tgt) as (s' & Hs' & ->).
    apply menuOpen_true.
    rewrite (click_toggle p b pn Hb Hpn Hne Hnav tgt s' Hnd Hbt Hanch), Hs'.
    now apply toggled_open, menuOpen_false. }
  split; [exact Houtside|]. split; [exact Hlink|].
  split; [exact (link_listener_first p b pn Hb Hpn)|].
  intros s0 t1 t2 t3 t4 onBtn outside onLink l Hclosed Hnd Hbt Hanch Hbo Hpo
    Hl Hin Hbl.
  unfold run. cbn [fold_left].
  pose proof (Htoggle s0 t1 onBtn Hnd Hbt Hanch Hclosed) as H1.
  pose proof (proj1 (Houtside (step p s0 (t1, Click onBtn)) t2 outside Hbo Hpo))
    as H2.
  pose proof (Htoggle _ t3 onBtn Hnd Hbt Hanch H2) as H3.
  repeat split; try done.
  now apply (Hlink _ t4 onLink l).
Qed.

Lemma C8_mobile_menu_witness :
  menuOpen (run menuPage [(0, Click 6%nat)] (sampleState 0)) 5%nat = true
  ∧ menuOpen (run menuPage [(0, Click 6%nat); (900, Click 20%nat)]
                (sampleState 0)) 5%nat = false
  ∧ menuOpen (run menuPage [(0, Click 6%nat); (900, Click 20%nat);
                            (1800, Click 6%nat)] (sampleState 0)) 5%nat = true
  ∧ menuOpen (run menuPage [(0, Click 6%nat); (900, Click 20%nat);
                            (1800, Click 6%nat); (2700, Click 1%nat)]
                (sampleState 0)) 5%nat = false.
Proof.
  apply (proj2 (proj2 (proj2
           (C8_mobile_menu menuPage 6%nat 5%nat eq_refl eq_refl
              ltac:(discriminate)
              ltac:(apply (bool_decide_unpack _); now vm_compute)))))
    with (l := 1%nat).
  - now vm_compute.
  - apply (bool_decide_unpack _). now vm_compute.
  - apply (bool_decide_unpack _). now vm_compute.
  - intros a Ha.
    apply elem_of_cons in Ha as [->|Ha]; [|apply list_elem_of_singleton in Ha as ->];
      apply (bool_decide_unpack _); now vm_compute.
  - apply (bool_decide_unpack _). now vm_compute.
  - apply (bool_decide_unpack _). now vm_compute.
  - apply (bool_decide_unpack _). now vm_compute.
  - apply (bool_decide_unpack _). now vm_compute.
  - apply (bool_decide_unpack _). now vm_compute.
Defined.

(** * Further properties of the listeners *)

(** ** Header chrome *)

Lemma styleSet_same (n : node) (prop value : string)
    (st : node → string → string) :
  styleSet n prop value st n prop = value.
Proof.
  unfold styleSet. destruct (decide (n = n)); [|done].
  now destruct (decide (prop = prop)).
Qed.

Lemma styleSet_other (n m : node) (prop q value : string)
    (st : node → string → string) :
  m ≠ n ∨ q ≠ prop → styleSet n prop value st m q = st m q.
Proof.
  intros H. unfold styleSet. destruct (decide (m = n)); [|done].
  destruct (decide (q = prop)); [|done]. tauto.
Qed.

(** X1: with a header on the page, [updateHeader] writes the header's
    background and shadow as a function of [scrollY] alone (the scrolled
    look exactly when [scrollY > 50]), touches no other style and no other
    element, and running it again changes nothing.  After a scroll event to
    [y] the header shows the look for [y]. *)
Theorem X1_updateHeader_follows_scrollY (p : Page) (h : node) (s : State) :
  header p = Some h →
  style (updateHeader p s) h "backgroundColor"
    = (if 50 <? scrollY (view s) then "rgba(15, 23, 42, 0.98)"
       else "rgba(15, 23, 42, 0.95)")
  ∧ style (updateHeader p s) h "boxShadow"
    = (if 50 <? scrollY (view s) then "0 2px 10px rgba(0, 0, 0, 0.1)" else "none")
  ∧ (∀ n q, n ≠ h ∨ (q ≠ "backgroundColor" ∧ q ≠ "boxShadow") →
       style (updateHeader p s) n q = style s n q)
  ∧ (∀ n q, style (updateHeader p (updateHeader p s)) n q
            = style (updateHeader p s) n q)
  ∧ uncaught (updateHeader p s) = uncaught s
  ∧ (∀ y, style (fst (dispatch p (Scroll y) s)) h "backgroundColor"
          = (if 50 <? y then "rgba(15, 23, 42, 0.98)"
             else "rgba(15, 23, 42, 0.95)")
          ∧ style (fst (dispatch p (Scroll y) s)) h "boxShadow"
            = (if 50 <? y then "0 2px 10px rgba(0, 0, 0, 0.1)" else "none")).
Proof.
  intros Hh.
  assert (Hbg : ∀ s0, style (updateHeader p s0) h "backgroundColor"
    = (if 50 <? scrollY (view s0) then "rgba(15, 23, 42, 0.98)"
       else "rgba(15, 23, 42, 0.95)")).
  { intros s0. unfold updateHeader. rewrite Hh.
    destruct (50 <? scrollY (view s0)); simpl;
      rewrite styleSet_other by (right; discriminate); apply styleSet_same. }
  assert (Hsh : ∀ s0, style (updateHeader p s0) h "boxShadow"
    = (if 50 <? scrollY (view s0) then "0 2px 10px rgba(0, 0, 0, 0.1)"
       else "none")).
  { intros s0. unfold updateHeader. rewrite Hh.
    destruct (50 <? scrollY (view s0)); simpl; apply styleSet_same. }
  assert (Hfr : ∀ s0 n q, n ≠ h ∨ (q ≠ "backgroundColor" ∧ q ≠ "boxShadow") →
       style (updateHeader p s0) n q = style s0 n q).
  { intros s0 n q Hnq. unfold updateHeader. rewrite Hh.
    destruct (50 <? scrollY (view s0)); simpl;
      rewrite !styleSet_other by tauto; done. }
  assert (Hview : ∀ s0, view (updateHeader p s0) = view s0).
  { intros s0. unfold updateHeader. rewrite Hh. now destruct (50 <? _). }
  split; [apply Hbg|]. split; [apply Hsh|]. split; [apply Hfr|].
  split; [|split].
  - intros n q.
    destruct (decide (n = h)) as [->|Hn]; [|rewrite !Hfr by tauto; done].
    destruct (decide (q = "backgroundColor")) as [->|Hq1].
    { now rewrite !Hbg, Hview. }
    destruct (decide (q = "boxShadow")) as [->|Hq2].
    { now rewrite !Hsh, Hview. }
    rewrite !Hfr by tauto. done.
  - unfold updateHeader. rewrite Hh. now destruct (50 <? _).
  - intros y. cbn [dispatch fst]. unfold onScroll.
    destruct (loaded p).
    + change (style (debouncedHeader ?x)) with (style x).
      change (style (debouncedNav ?x)) with (style x).
      now rewrite Hbg, Hsh.
    + now rewrite Hbg, Hsh.
Qed.

Lemma X1_updateHeader_follows_scrollY_witness :
  style (fst (dispatch aboutPage (Scroll 51) (sampleState 0))) 0%nat "backgroundColor"
    = "rgba(15, 23, 42, 0.98)"
  ∧ style (fst (dispatch aboutPage (Scroll 50) (sampleState 0))) 0%nat "backgroundColor"
    = "rgba(15, 23, 42, 0.95)".
Proof.
  split.
  - apply (proj1 (proj2 (proj2 (proj2 (proj2 (proj2
             (X1_updateHeader_follows_scrollY aboutPage 0%nat (sampleState 0)
                eq_refl))))) 51)).
  - apply (proj1 (proj2 (proj2 (proj2 (proj2 (proj2
             (X1_updateHeader_follows_scrollY aboutPage 0%nat (sampleState 0)
                eq_refl))))) 50)).
Defined.

(** X2: on a page without a [header] element every scroll event lets one
    [TypeError] escape from [updateHeader], and the nav links are updated
    as on any page.  When the page has a [.hero] element, so that the
    debounced listeners are registered, the debounced wrapper of
    [updateHeader] sets its timer as well, 10 ms ahead; without one the
    scroll event sets no timer.  A [later] of that wrapper, when it runs,
    fails the same way. *)
Theorem X2_scroll_without_header (p : Page) (s : State) (y : Z) :
  header p = None →
  uncaught (fst (dispatch p (Scroll y) s)) = (uncaught s ++ [TypeError])%list
  ∧ classes (fst (dispatch p (Scroll y) s))
    = classes (updateActiveNavLink p (setView (withScrollY y (view s)) s))
  ∧ (loaded p = true →
     ∃ b rest,
       table (timers (fst (dispatch p (Scroll y) s)))
       = (rest ++ [mkTimer b (now s + 10) LaterHeader])%list
       ∧ headerTimeout (fst (dispatch p (Scroll y) s)) = Some b)
  ∧ (loaded p = false →
     timers (fst (dispatch p (Scroll y) s)) = timers s)
  ∧ (∀ s0, uncaught (fireTask p LaterHeader s0)
           = (uncaught s0 ++ [TypeError])%list).
Proof.
  intros Hh.
  assert (Hu : ∀ s0, updateHeader p s0 = throw TypeError s0).
  { intros s0. unfold updateHeader. now rewrite Hh. }
  split; [|split; [|split; [|split]]].
  - cbn [dispatch fst]. unfold onScroll. rewrite Hu. now destruct (loaded p).
  - cbn [dispatch fst]. unfold onScroll. rewrite Hu. now destruct (loaded p).
  - intros Hl. cbn [dispatch fst]. unfold onScroll. rewrite Hu, Hl.
    unfold debouncedHeader, executedFunction, setTimeout.
    cbn -[clearTimeout updateActiveNavLink debouncedNav Z.add].
    eexists _, _. split; reflexivity.
  - intros Hl. cbn [dispatch fst]. unfold onScroll. now rewrite Hu, Hl.
  - intros s0. cbn [fireTask]. unfold laterHeader. now rewrite Hu.
Qed.

Lemma X2_scroll_without_header_witness :
  uncaught (fst (dispatch (barePage None) (Scroll 80) idle)) = [TypeError]
  ∧ ∃ b rest,
      table (timers (fst (dispatch (barePage None) (Scroll 80) idle)))
      = (rest ++ [mkTimer b (now idle + 10) LaterHeader])%list
      ∧ headerTimeout (fst (dispatch (barePage None) (Scroll 80) idle)) = Some b.
Proof.
  split.
  - apply (proj1 (X2_scroll_without_header (barePage None) idle 80 eq_refl)).
  - apply (proj1 (proj2 (proj2
             (X2_scroll_without_header (barePage None) idle 80 eq_refl)))).
    reflexivity.
Defined.

(** ** Resume toggle *)


(** ** Programmatic scrolling *)

Lemma scrollRequests_updateActiveNavLink (p : Page) (s : State) :
  scrollRequests (updateActiveNavLink p s) = scrollRequests s.
Proof. done. Qed.

Lemma scrollRequests_updateHeader (p : Page) (s : State) :
  scrollRequests (updateHeader p s) = scrollRequests s.
Proof. unfold updateHeader. destruct (header p); [|done]. now destruct (50 <? _). Qed.

Lemma scrollRequests_fireTask (p : Page) (tk : Task) (s : State) :
  scrollRequests (fireTask p tk s) = scrollRequests s.
Proof.
  destruct tk; cbn [fireTask].
  - unfold laterNav. now rewrite scrollRequests_updateActiveNavLink.
  - unfold laterHeader. now rewrite scrollRequests_updateHeader.
  - unfold typeWriter. destruct (heroSubtitle p); [|done].
    now destruct (_ <? _)%nat.
Qed.

Lemma scrollRequests_runDue (p : Page) (fuel : nat) (t : Z) :
  ∀ s, scrollRequests (runDue p fuel t s) = scrollRequests s.
Proof.
  induction fuel as [|fuel IH]; intros s; [done|].
  simpl. destruct (nextDue t (table (timers s))) as [x|]; [|done].
  rewrite IH. unfold fireTimer. now rewrite scrollRequests_fireTask.
Qed.

Lemma scrollRequests_debounced (s : State) :
  scrollRequests (debouncedHeader s) = scrollRequests s
  ∧ scrollRequests (debouncedNav s) = scrollRequests s.
Proof. done. Qed.

Lemma scrollRequests_onScroll (p : Page) (s : State) :
  scrollRequests (onScroll p s) = scrollRequests s.
Proof.
  unfold onScroll. destruct (loaded p).
  - rewrite (proj1 (scrollRequests_debounced _)), (proj2 (scrollRequests_debounced _)).
    now rewrite scrollRequests_updateHeader.
  - now rewrite scrollRequests_updateHeader.
Qed.

(** X12: the page only ever scrolls itself in answer to a click.  Scroll
    events, observer batches, touches, hovers, keys, layout changes and the
    timers that run before them never call [window.scrollTo]. *)
Theorem X12_only_clicks_scroll (p : Page) (s : State) (t : Z) (e : Event) :
  (∀ tgt, e ≠ Click tgt) →
  scrollRequests (step p s (t, e)) = scrollRequests s.
Proof.
  intros Hnc. unfold step. cbn [fst snd].
  set (s2 := setNow _ _).
  assert (H2 : scrollRequests s2 = scrollRequests s).
  { subst s2. cbn [scrollRequests setNow]. apply scrollRequests_runDue. }
  rewrite <- H2. destruct e; cbn [dispatch fst]; try done.
  - now destruct (Hnc tgt).
  - now rewrite scrollRequests_onScroll.
  - clear Hnc. unfold observerCallback. generalize s2.
    induction entries as [|en entries IH]; intros s0; [done|].
    simpl. rewrite IH. unfold reveal. now destruct (isIntersecting en).
  - now destruct (loaded p).
  - destruct (loaded p); [|done]. unfold touchMove. now destruct (_ || _).
  - now destruct (bool_decide _).
  - now destruct (bool_decide _).
Qed.

Lemma X12_only_clicks_scroll_witness :
  scrollRequests (step aboutPage (sampleState 0) (7, Scroll 300)) = [].
Proof.
  apply (X12_only_clicks_scroll aboutPage (sampleState 0) 7 (Scroll 300)).
  intros tgt. discriminate.
Defined.

(** ** NavSync, again *)

(** X7: [updateActiveNavLink] is idempotent.  Run twice on the same layout
    and scroll position it leaves every class list as the first run did, so
    the debounced call that trails a scroll event changes nothing when the
    viewport has not moved since. *)
Theorem X7_updateActiveNavLink_idempotent (p : Page) (s : State) (m : node) :
  classes (updateActiveNavLink p (updateActiveNavLink p s)) m
  = classes (updateActiveNavLink p s) m.
Proof.
  apply set_eq. intros d.
  rewrite (classes_updateActiveNavLink p (updateActiveNavLink p s)).
  change (view (updateActiveNavLink p s)) with (view s).
  rewrite elem_visitSections.
  pose proof (elem_visitSections p (view s) (scrollY (view s) + 100)
                (sections p) (classes s) m d) as H1.
  rewrite <- (classes_updateActiveNavLink p s) in H1.
  destruct (lastInside _ _ _); tauto.
Qed.

(** What a batch of observer entries does to the class lists: the targets
    of the intersecting entries gain [fade-in] and [visible]. *)
Lemma elem_observerCallback (entries : list Entry) (m : node) (d : string) :
  ∀ s, d ∈ classes (observerCallback entries s) m ↔
       d ∈ classes s m
       ∨ ((d = "fade-in" ∨ d = "visible") ∧ mkEntry m true ∈ entries).
Proof.
  unfold observerCallback.
  induction entries as [|e entries IH]; intros s.
  - simpl. rewrite elem_of_nil. tauto.
  - simpl. rewrite IH, elem_of_cons. unfold reveal.
    destruct e as [tg [|]]; cbn [isIntersecting target].
    + cbn [classes setClasses]. rewrite !elem_classAdd.
      split.
      * intros [[[H|[Hm Hd]]|[Hm Hd]]|H]; [tauto| | |tauto];
          subst; right; (split; [tauto | now left]).
      * intros [H|[Hd [Heq|H]]]; [tauto| |tauto].
        injection Heq as ->. destruct Hd as [->| ->]; tauto.
    + split; [tauto|]. intros [H|[Hd [H|H]]]; [tauto| |tauto]. discriminate.
Qed.

(** X8: a batch of intersection entries is processed entry by entry with
    the same result in any order: the class lists after the callback depend
    only on which entries the batch holds.  Entries that do not intersect
    change nothing. *)
Theorem X8_observer_batch_order (entries entries' : list Entry) (s : State)
    (m : node) :
  entries ≡ₚ entries' →
  classes (observerCallback entries s) m = classes (observerCallback entries' s) m.
Proof.
  intros Hperm. apply set_eq. intros d. rewrite !elem_observerCallback.
  now rewrite Hperm.
Qed.

Lemma X8_observer_batch_order_witness :
  classes (observerCallback [mkEntry 10%nat true; mkEntry 3%nat false;
                             mkEntry 4%nat true] idle) 10%nat
  = classes (observerCallback [mkEntry 4%nat true; mkEntry 10%nat true;
                               mkEntry 3%nat false] idle) 10%nat.
Proof.
  apply X8_observer_batch_order.
  symmetry.
  exact (Permutation_cons_append [mkEntry 10%nat true; mkEntry 3%nat false]
           (mkEntry 4%nat true)).
Defined.

(** X9: entries that are not intersecting leave every class list alone,
    also those of elements revealed before: the observer never hides
    anything, and elements outside the batch are not touched. *)
Theorem X9_observer_only_adds (entries : list Entry) (s : State) (m : node) :
  (∀ e, e ∈ entries → target e = m → isIntersecting e = false) →
  classes (observerCallback entries s) m = classes s m.
Proof.
  intros H. apply set_eq. intros d. rewrite elem_observerCallback.
  split; [|tauto]. intros [Hd|[_ Hin]]; [done|].
  now specialize (H _ Hin eq_refl).
Qed.

Lemma X9_observer_only_adds_witness :
  classes (observerCallback [mkEntry 10%nat false; mkEntry 4%nat true]
             (fst (dispatch aboutPage (Intersection [mkEntry 10%nat true]) idle)))
    10%nat
  = classes (fst (dispatch aboutPage (Intersection [mkEntry 10%nat true]) idle))
      10%nat.
Proof.
  apply X9_observer_only_adds.
  intros e He. apply elem_of_cons in He as [->|He].
  - reflexivity.
  - apply list_elem_of_singleton in He as ->. simpl. discriminate.
Defined.

(** ** Clicks *)

(** X4: the click listener of an in-page nav link is all or nothing, and
    always suppresses the default.  Either it goes through (one scroll is
    requested, no exception escapes, and among the nav links the clicked one
    alone is active), or it gives up before changing anything (no scroll
    request, no class list changed, at most one exception).  Styles, layout
    and timers are never touched. *)
Theorem X4_navLinkClick_all_or_nothing (p : Page) (this : node) (h : string)
    (s : State) :
  snd (navLinkClick p this h s) = true
  ∧ style (fst (navLinkClick p this h s)) = style s
  ∧ view (fst (navLinkClick p this h s)) = view s
  ∧ timers (fst (navLinkClick p this h s)) = timers s
  ∧ ((∃ top, scrollRequests (fst (navLinkClick p this h s))
             = (scrollRequests s ++ [top])%list
             ∧ uncaught (fst (navLinkClick p this h s)) = uncaught s
             ∧ isActive (fst (navLinkClick p this h s)) this = true
             ∧ ∀ l, l ∈ navLinks p → l ≠ this →
                 isActive (fst (navLinkClick p this h s)) l = false)
     ∨ (scrollRequests (fst (navLinkClick p this h s)) = scrollRequests s
        ∧ classes (fst (navLinkClick p this h s)) = classes s
        ∧ (uncaught (fst (navLinkClick p this h s)) = uncaught s
           ∨ ∃ e, uncaught (fst (navLinkClick p this h s))
                  = (uncaught s ++ [e])%list))).
Proof.
  unfold navLinkClick. cbn [fst snd].
  destruct (querySelector p h) as [tg| |];
    [destruct (querySelector p ".nav-container") as [c| |]| |];
    (split; [done|]); (split; [done|]); (split; [done|]); (split; [done|]).
  - left. eexists. split; [reflexivity|]. split; [done|]. split.
    + apply isActive_true. cbn [classes setClasses scrollTo].
      rewrite elem_classAdd. tauto.
    + intros l Hl Hne. apply isActive_false. cbn [classes setClasses scrollTo].
      rewrite elem_classAdd, elem_clearActive. tauto.
  - right. split; [done|]. split; [done|]. right. now exists TypeError.
  - right. split; [done|]. split; [done|]. right. now exists SyntaxError.
  - right. split; [done|]. split; [done|]. now left.
  - right. split; [done|]. split; [done|]. right. now exists SyntaxError.
Qed.

(** X5: activating by click is idempotent: a second click on the same link
    leaves every class list as the first click left it (it only asks for
    the same scroll once more). *)
Theorem X5_navLinkClick_twice (p : Page) (this : node) (h : string) (s : State)
    (m : node) :
  classes (fst (navLinkClick p this h (fst (navLinkClick p this h s)))) m
  = classes (fst (navLinkClick p this h s)) m.
Proof.
  unfold navLinkClick. cbn [fst snd].
  destruct (querySelector p h) as [tg| |]; [|done|done].
  destruct (querySelector p ".nav-container") as [c| |]; [|done|done].
  cbn [classes setClasses scrollTo view].
  apply set_eq. intros d.
  rewrite !elem_classAdd, !elem_clearActive, !elem_classAdd, !elem_clearActive.
  tauto.
Qed.

Section PlainClick.
Variable p : Page.
Variable s : State.

Local Abbreviation untouched := (untouchedSince p s).

Lemma untouched_runListener (n : node) (acc : State * bool) (l : Listener) :
  ¬ inPage p n → l ∈ listenersOn p n →
  untouched acc → untouched (runListener p n acc l).
Proof.
  intros Hn Hl (Hd & Hsr & Hun & Hcl).
  destruct l as [h|b c|b pn|b pn|]; cbn [runListener].
  - destruct Hn. eapply listenersOn_nav, Hl.
  - unfold untouchedSince, resumeToggle. cbn [fst snd].
    destruct (negb _); cbn; auto.
  - apply listenersOn_toggle in Hl as (Hb & Hpn & _).
    unfold untouchedSince. cbn [fst snd menuToggle].
    repeat split; try done.
    intros l Hlb Hlpn. unfold menuToggle. cbn [classes setClasses].
    rewrite !classToggle_other by congruence. now apply Hcl.
  - apply listenersOn_close in Hl as (Hb & Hpn & _).
    unfold untouchedSince. cbn [fst snd menuClose].
    repeat split; try done.
    intros l Hlb Hlpn. unfold menuClose. cbn [classes setClasses].
    rewrite !classRemove_other by congruence. now apply Hcl.
  - done.
Qed.

Lemma untouched_listeners (n : node) (ls : list Listener) :
  ¬ inPage p n → (∀ l, l ∈ ls → l ∈ listenersOn p n) →
  ∀ acc, untouched acc → untouched (fold_left (runListener p n) ls acc).
Proof.
  intros Hn. induction ls as [|l ls IH]; intros Hls acc Hacc; [done|].
  simpl. apply IH; [intros l' Hl'; apply Hls; now right|].
  apply untouched_runListener; [done | apply Hls; left | done].
Qed.

Lemma untouched_path (ns : list node) :
  (∀ n, n ∈ ns → ¬ inPage p n) →
  ∀ acc, untouched acc → untouched (fold_left (clickAt p) ns acc).
Proof.
  induction ns as [|n ns IH]; intros Hns acc Hacc; [done|].
  simpl. apply IH; [intros n' Hn'; apply Hns; now right|].
  apply untouched_listeners; [apply Hns; left | auto | done].
Qed.

(** X6: a click that reaches no in-page nav link (a click on an external
    link, on a section, on the resume or menu button) is left to the
    browser: the default is not suppressed, no scroll is requested, no
    exception escapes, and no class list changes other than those of the
    menu button and the menu panel. *)
Theorem X6_click_off_nav_links (tgt : node) :
  (∀ n, n ∈ path p tgt → ¬ inPage p n) →
  snd (dispatchClick p tgt s) = false
  ∧ scrollRequests (fst (dispatchClick p tgt s)) = scrollRequests s
  ∧ uncaught (fst (dispatchClick p tgt s)) = uncaught s
  ∧ ∀ l, mobileMenuBtn p ≠ Some l → mobileNavLinks p ≠ Some l →
      classes (fst (dispatchClick p tgt s)) l = classes s l.
Proof.
  intros Hpath.
  assert (H0 : untouched (s, false)) by (repeat split; done).
  pose proof (untouched_path (path p tgt) Hpath (s, false) H0)
    as (Hd & Hsr & Hun & Hcl).
  unfold dispatchClick.
  destruct (mobileMenuBtn p) as [b|] eqn:Hb; [|repeat split; done].
  destruct (mobileNavLinks p) as [pn|] eqn:Hpn; [|repeat split; done].
  cbn [fst snd]. unfold outsideClick.
  destruct (negb _ && negb _); [|repeat split; done].
  repeat split; try done.
  intros l Hlb Hlpn. unfold menuClose. cbn [classes setClasses].
  rewrite !classRemove_other by congruence. now apply Hcl.
Qed.
End PlainClick.

Lemma X6_click_off_nav_links_witness :
  snd (dispatchClick menuPage 2%nat (sampleState 0)) = false
  ∧ scrollRequests (fst (dispatchClick menuPage 2%nat (sampleState 0))) = [].
Proof.
  destruct (X6_click_off_nav_links menuPage (sampleState 0) 2%nat) as (H1 & H2 & _).
  - intros n Hn [_ [h Hh]].
    apply elem_of_cons in Hn as [->|Hn]; [now vm_compute in Hh|].
    apply elem_of_cons in Hn as [->|Hn]; [now vm_compute in Hh|].
    apply list_elem_of_singleton in Hn as ->. now vm_compute in Hh.
  - split; [exact H1 | exact H2].
Defined.

(** ** Debouncer, under any schedule *)

Section DebounceSchedule.
Context {A W : Type}.
Variable func : A → W → W.
Variable wait : Z.

Local Abbreviation Closure := (Debounce.Closure (A:=A) (W:=W)).

(** A call leaves exactly its own [later] pending, whatever was pending
    before, and runs nothing. *)
Lemma invoke_holds (slot : option A) (c : Closure) (args : A) :
  holds slot c →
  holds (Some args) (invoke wait c args)
  ∧ Debounce.ran (invoke wait c args) = Debounce.ran c
  ∧ Debounce.world (invoke wait c args) = Debounce.world c.
Proof.
  intros H. unfold invoke, executedFunction, setTimeout.
  cbn [holds Debounce.pending Debounce.timeout Debounce.ran Debounce.world].
  split; [|done].
  destruct slot as [args'|]; cbn [holds] in H.
  - destruct H as (id & d & Htab & Hto). rewrite Hto.
    cbn [clearTimeout table nextId]. rewrite Htab.
    cbn [List.filter tid]. rewrite Nat.eqb_refl. cbn [negb app].
    now eexists _, _.
  - assert (Hclr : table (clearTimeout (Debounce.timeout c) (Debounce.pending c))
                   = []).
    { destruct (Debounce.timeout c); cbn [clearTimeout table]; now rewrite H. }
    cbn [table]. rewrite Hclr. cbn [app].
    now eexists _, _.
Qed.

(** The timer of a pending call runs: [func] gets the arguments of that
    call and nothing is left pending. *)
Lemma expire_full (c : Closure) (args : A) :
  holds (Some args) c →
  holds None (expire func c)
  ∧ map snd (Debounce.ran (expire func c)) = (map snd (Debounce.ran c) ++ [args])%list
  ∧ Debounce.world (expire func c) = func args (Debounce.world c).
Proof.
  intros (id & d & Htab & Hto). unfold expire. rewrite Htab.
  unfold Debounce.fire, Debounce.later.
  cbn [holds Debounce.pending Debounce.timeout Debounce.ran Debounce.world
       Debounce.clock task tid due].
  rewrite Hto. cbn [clearTimeout table nextId]. rewrite Htab.
  cbn [List.filter tid]. rewrite Nat.eqb_refl. cbn [negb List.filter].
  split; [done|]. split; [|done].
  now rewrite map_app.
Qed.

(** With nothing pending there is no timer to run. *)
Lemma expire_empty (c : Closure) : holds None c → expire func c = c.
Proof. cbn [holds]. intros H. unfold expire. now rewrite H. Qed.

Lemma schedule_honoured (l : list (Act (A:=A))) :
  ∀ (slot : option A) (c : Closure),
    holds slot c →
    map snd (Debounce.ran (schedule func wait l c))
    = (map snd (Debounce.ran c) ++ honoured slot l)%list
    ∧ Debounce.world (schedule func wait l c)
      = fold_left (fun w args => func args w) (honoured slot l)
          (Debounce.world c)
    ∧ (length (table (Debounce.pending (schedule func wait l c))) <= 1)%nat.
Proof.
  induction l as [|a l IH]; intros slot c H.
  - cbn [schedule fold_left honoured]. rewrite app_nil_r.
    split; [done|]. split; [done|].
    destruct slot; cbn [holds] in H.
    + destruct H as (id & d & -> & _). simpl. lia.
    + rewrite H. simpl. lia.
  - change (schedule func wait (a :: l) c)
      with (schedule func wait l (act func wait c a)).
    destruct a as [args|]; cbn [act honoured].
    + destruct (invoke_holds slot c args H) as (H1 & H2 & H3).
      destruct (IH (Some args) _ H1) as (I1 & I2 & I3).
      now rewrite I1, I2, H2, H3.
    + destruct slot as [args|].
      * destruct (expire_full c args H) as (H1 & H2 & H3).
        destruct (IH None _ H1) as (I1 & I2 & I3).
        rewrite I1, I2, H2, H3. cbn [fold_left].
        now rewrite <- app_assoc.
      * rewrite (expire_empty c H). exact (IH None c H).
Qed.

(** X10: a debounced function is a buffer of one place, whenever the
    browser runs the timers.  Through any sequence of calls and timer
    expiries, starting with no timer pending, [func] runs exactly on the
    arguments of the calls whose timer expired before the next call was
    made, in call order; a call made while another is waiting replaces
    it; and never more than one timer is pending. *)
Theorem X10_debounce_is_one_place_buffer (c0 : Closure) (l : list (Act (A:=A))) :
  table (Debounce.pending c0) = [] →
  map snd (Debounce.ran (schedule func wait l c0))
  = (map snd (Debounce.ran c0) ++ honoured None l)%list
  ∧ Debounce.world (schedule func wait l c0)
    = fold_left (fun w args => func args w) (honoured None l)
        (Debounce.world c0)
  ∧ (length (table (Debounce.pending (schedule func wait l c0))) <= 1)%nat.
Proof. intros H. now apply schedule_honoured. Qed.
End DebounceSchedule.

Lemma X10_debounce_is_one_place_buffer_witness :
  map snd (Debounce.ran
     (schedule Z.add 10
        [Invoke 1; Invoke 2; Expire; Expire; Invoke 3; Expire; Invoke 4]
        (Debounce.debounce 0 0 (mkTimers [] 1))))
  = [2; 3]
  ∧ Debounce.world
      (schedule Z.add 10
         [Invoke 1; Invoke 2; Expire; Expire; Invoke 3; Expire; Invoke 4]
         (Debounce.debounce 0 0 (mkTimers [] 1)))
    = 5.
Proof.
  split.
  - apply (proj1 (X10_debounce_is_one_place_buffer Z.add 10
             (Debounce.debounce 0 0 (mkTimers [] 1))
             [Invoke 1; Invoke 2; Expire; Expire; Invoke 3; Expire; Invoke 4]
             eq_refl)).
  - apply (proj1 (proj2 (X10_debounce_is_one_place_buffer Z.add 10
             (Debounce.debounce 0 0 (mkTimers [] 1))
             [Invoke 1; Invoke 2; Expire; Expire; Invoke 3; Expire; Invoke 4]
             eq_refl))).
Defined.

(** Calls that each see their timer expire before the next one are all
    honoured; of calls made in a row only the last is. *)
Example schedule_spaced_and_burst :
  honoured None [Invoke 1; Expire; Invoke 2; Expire; Invoke 3; Expire] = [1; 2; 3]
  ∧ honoured None [Invoke 1; Invoke 2; Invoke 3; Expire] = [3].
Proof. done. Qed.

(** ** Typing effect *)

Lemma append_empty (str : string) : str +:+ "" = str.
Proof.
  induction str as [|a str IH]; [done|].
  change (String a (str +:+ "") = String a str). now rewrite IH.
Qed.

Lemma append_append (a b c : string) : (a +:+ b) +:+ c = a +:+ (b +:+ c).
Proof.
  induction a as [|x a IH]; [done|].
  change (String x ((a +:+ b) +:+ c) = String x (a +:+ (b +:+ c))).
  now rewrite IH.
Qed.

Lemma spelled_snoc (units : list string) :
  ∀ i, (i < length units)%nat →
    spelled (firstn i units) +:+ charAt units i = spelled (firstn (S i) units).
Proof.
  unfold charAt.
  induction units as [|u units IH]; intros i Hi; [simpl in Hi; lia|].
  destruct i as [|i].
  - change (u = u +:+ ""). now rewrite append_empty.
  - cbn [firstn spelled fold_right nth]. rewrite append_append.
    f_equal. apply IH. simpl in Hi. lia.
Qed.

Section Typing.
Variable p : Page.
Variable h : node.

(** One firing of [typeWriter] with code units left, however late: one
    more unit is typed and the next firing is set. *)
Lemma typing_expire_more (s : State) (i : nat) (late : Z) :
  typing p h s i → (i < length (text p))%nat →
  typing p h (expireLate p s late) (S i).
Proof.
  intros (Hh & Hi & Hle & Htxt & (id & d & Htab)) Hlt.
  unfold expireLate. rewrite Htab.
  unfold fireTimer. cbn [task tid due fireTask].
  unfold typeWriter. rewrite Hh.
  cbn [typed setNow setTimers]. rewrite Hi.
  destruct (i <? length (text p))%nat eqn:E;
    [|apply Nat.ltb_ge in E; lia].
  unfold typing.
  cbn [typed setTyped setTimers setTextContent textContent timers now setNow
       clearTimeout table nextId setTimeout snd].
  rewrite Htab. cbn [List.filter tid]. rewrite Nat.eqb_refl. cbn [negb app].
  split; [done|]. split; [now rewrite Hi|]. split; [lia|]. split.
  - unfold textSet. destruct (decide (h = h)); [|done].
    rewrite Htxt. now apply spelled_snoc.
  - now eexists _, _.
Qed.

(** The firing after the last code unit types nothing and sets no timer. *)
Lemma typing_expire_last (s : State) (late : Z) :
  typing p h s (length (text p)) →
  textContent (expireLate p s late) h = spelled (text p)
  ∧ typed (expireLate p s late) = length (text p)
  ∧ table (timers (expireLate p s late)) = [].
Proof.
  intros (Hh & Hi & Hle & Htxt & (id & d & Htab)).
  unfold expireLate. rewrite Htab.
  unfold fireTimer. cbn [task tid due fireTask].
  unfold typeWriter. rewrite Hh.
  cbn [typed setNow setTimers]. rewrite Hi, Nat.ltb_irrefl.
  cbn [textContent typed timers setNow setTimers clearTimeout table].
  rewrite Htab. cbn [List.filter tid]. rewrite Nat.eqb_refl. cbn [negb].
  rewrite Htxt, firstn_all. done.
Qed.

Lemma typing_expire_many (lates : list Z) :
  ∀ (s : State) (i : nat),
    typing p h s i → (i + length lates <= length (text p))%nat →
    typing p h (fold_left (expireLate p) lates s) (i + length lates).
Proof.
  induction lates as [|late lates IH]; intros s i Hty Hlen.
  - cbn [fold_left length]. now rewrite Nat.add_0_r.
  - cbn [fold_left length] in *.
    replace (i + S (length lates))%nat with (S i + length lates)%nat by lia.
    apply IH; [|lia]. apply typing_expire_more; [done|lia].
Qed.

(** X11: the typing effect types one code unit of the subtitle per firing
    of its timer and finishes with the full text, however late the browser
    runs each timer.  From the state the load handler leaves (subtitle
    emptied, first [typeWriter] pending, nothing else pending), after [k]
    firings, [k] at most the length of the text, the subtitle shows the
    first [k] code units and the next firing is pending; after one firing
    more than the text has code units the subtitle reads the full text
    again and no timer is left. *)
Theorem X11_typing_completes (s : State) (lates : list Z) (late : Z) :
  typing p h s 0 →
  ((length lates <= length (text p))%nat →
   typing p h (fold_left (expireLate p) lates s) (length lates))
  ∧ (length lates = length (text p) →
     textContent (fold_left (expireLate p) (lates ++ [late]) s) h
     = spelled (text p)
     ∧ typed (fold_left (expireLate p) (lates ++ [late]) s) = length (text p)
     ∧ table (timers (fold_left (expireLate p) (lates ++ [late]) s)) = []).
Proof.
  intros Hty. split.
  - intros Hlen. now apply (typing_expire_many lates s 0%nat).
  - intros Hlen. rewrite fold_left_app. cbn [fold_left].
    apply typing_expire_last. rewrite <- Hlen.
    apply (typing_expire_many lates s 0%nat); [done|lia].
Qed.
End Typing.

Lemma X11_typing_completes_witness :
  textContent (fold_left (expireLate subtitlePage) ([0; 250; 3] ++ [0])
                 subtitleStart) 7%nat = "Hé!"
  ∧ typed (fold_left (expireLate subtitlePage) ([0; 250; 3] ++ [0])
             subtitleStart) = 3%nat
  ∧ table (timers (fold_left (expireLate subtitlePage) ([0; 250; 3] ++ [0])
                     subtitleStart)) = [].
Proof.
  apply (proj2 (X11_typing_completes subtitlePage 7%nat subtitleStart
                  [0; 250; 3] 0
                  ltac:(repeat split; [simpl; lia | now eexists _, _]))).
  reflexivity.
Defined.

(** The second code unit of that subtitle, two bytes in this file, is
    typed in one firing. *)
Example typing_types_code_units :
  textContent (fold_left (expireLate subtitlePage) [0; 0] subtitleStart) 7%nat
  = "Hé"
  ∧ typed (fold_left (expireLate subtitlePage) [0; 0] subtitleStart) = 2%nat.
Proof. now vm_compute. Qed.

(** ** The debounced wrappers never pile up timers *)

Lemma tidy_clearTimeout (id : option nat) (tm : Timers Task) (nt ht : option nat) :
  tidy tm nt ht → tidy (clearTimeout id tm) nt ht.
Proof.
  intros (Hnd & Hlt & Hn & Hh). destruct id as [i|]; [|done].
  unfold tidy. cbn [clearTimeout table nextId].
  repeat split.
  - clear Hlt Hn Hh. induction (table tm) as [|x l IH]; [constructor|].
    cbn [map] in Hnd. apply NoDup_cons in Hnd as [Hx Hnd].
    cbn [List.filter]. destruct (negb _); [|now apply IH].
    cbn [map]. apply NoDup_cons. split; [|now apply IH].
    intros Hin. apply Hx. apply list_elem_of_fmap in Hin as (y & -> & Hy).
    apply list_elem_of_In, filter_In in Hy as [Hy _].
    apply list_elem_of_fmap. exists y. split; [done|]. now apply list_elem_of_In.
  - intros x Hx. apply list_elem_of_In, filter_In in Hx as [Hx _].
    now apply Hlt, list_elem_of_In.
  - intros x Hx. apply list_elem_of_In, filter_In in Hx as [Hx _].
    now apply Hn, list_elem_of_In.
  - intros x Hx. apply list_elem_of_In, filter_In in Hx as [Hx _].
    now apply Hh, list_elem_of_In.
Qed.

Lemma NoDup_fresh (tm : Timers Task) (tk : Task) (d : Z) :
  NoDup (map tid (table tm)) →
  (∀ x, x ∈ table tm → (tid x < nextId tm)%nat) →
  NoDup (map tid (table tm ++ [mkTimer (nextId tm) d tk])).
Proof.
  intros Hnd Hlt. rewrite map_app. cbn [map tid].
  apply NoDup_app. split; [done|]. split; [|apply NoDup_singleton].
  intros i Hi Hi'. apply list_elem_of_singleton in Hi' as ->.
  apply list_elem_of_fmap in Hi as (y & Hy & Hin).
  specialize (Hlt y Hin). lia.
Qed.

Lemma tidy_typeWriter_timer (tm : Timers Task) (nt ht : option nat) (delay t : Z) :
  tidy tm nt ht → tidy (snd (setTimeout TypeWriter delay t tm)) nt ht.
Proof.
  intros (Hnd & Hlt & Hn & Hh). unfold tidy. cbn [setTimeout snd table nextId].
  repeat split.
  - now apply NoDup_fresh.
  - intros x Hx. apply elem_of_app in Hx as [Hx|Hx].
    + specialize (Hlt x Hx). lia.
    + apply list_elem_of_singleton in Hx as ->. cbn. lia.
  - intros x Hx Ht. apply elem_of_app in Hx as [Hx|Hx]; [now apply Hn|].
    apply list_elem_of_singleton in Hx as ->. discriminate.
  - intros x Hx Ht. apply elem_of_app in Hx as [Hx|Hx]; [now apply Hh|].
    apply list_elem_of_singleton in Hx as ->. discriminate.
Qed.

Lemma tidy_debouncedNav (tm : Timers Task) (nt ht : option nat) (wait t : Z) :
  tidy tm nt ht →
  tidy (snd (executedFunction LaterNav wait t nt tm))
       (fst (executedFunction LaterNav wait t nt tm)) ht.
Proof.
  intros Htidy.
  pose proof (tidy_clearTimeout nt tm nt ht Htidy) as (Hnd & Hlt & Hn & Hh).
  destruct Htidy as (_ & _ & Hn0 & _).
  unfold executedFunction. cbn [setTimeout fst snd].
  unfold tidy. cbn [table nextId].
  repeat split.
  - now apply NoDup_fresh.
  - intros x Hx. apply elem_of_app in Hx as [Hx|Hx].
    + specialize (Hlt x Hx). lia.
    + apply list_elem_of_singleton in Hx as ->. cbn. lia.
  - intros x Hx Ht. apply elem_of_app in Hx as [Hx|Hx].
    + exfalso. destruct nt as [i|].
      * cbn [clearTimeout table] in Hx.
        apply list_elem_of_In, filter_In in Hx as [Hx Hne].
        apply list_elem_of_In in Hx. specialize (Hn0 x Hx Ht).
        injection Hn0 as ->. now rewrite Nat.eqb_refl in Hne.
      * cbn [clearTimeout] in Hx. now specialize (Hn0 x Hx Ht).
    + apply list_elem_of_singleton in Hx as ->. reflexivity.
  - intros x Hx Ht. apply elem_of_app in Hx as [Hx|Hx]; [now apply Hh|].
    apply list_elem_of_singleton in Hx as ->. discriminate.
Qed.

Lemma tidy_debouncedHeader (tm : Timers Task) (nt ht : option nat) (wait t : Z) :
  tidy tm nt ht →
  tidy (snd (executedFunction LaterHeader wait t ht tm)) nt
       (fst (executedFunction LaterHeader wait t ht tm)).
Proof.
  intros Htidy.
  pose proof (tidy_clearTimeout ht tm nt ht Htidy) as (Hnd & Hlt & Hn & Hh).
  destruct Htidy as (_ & _ & _ & Hh0).
  unfold executedFunction. cbn [setTimeout fst snd].
  unfold tidy. cbn [table nextId].
  repeat split.
  - now apply NoDup_fresh.
  - intros x Hx. apply elem_of_app in Hx as [Hx|Hx].
    + specialize (Hlt x Hx). lia.
    + apply list_elem_of_singleton in Hx as ->. cbn. lia.
  - intros x Hx Ht. apply elem_of_app in Hx as [Hx|Hx]; [now apply Hn|].
    apply list_elem_of_singleton in Hx as ->. discriminate.
  - intros x Hx Ht. apply elem_of_app in Hx as [Hx|Hx].
    + exfalso. destruct ht as [i|].
      * cbn [clearTimeout table] in Hx.
        apply list_elem_of_In, filter_In in Hx as [Hx Hne].
        apply list_elem_of_In in Hx. specialize (Hh0 x Hx Ht).
        injection Hh0 as ->. now rewrite Nat.eqb_refl in Hne.
      * cbn [clearTimeout] in Hx. now specialize (Hh0 x Hx Ht).
    + apply list_elem_of_singleton in Hx as ->. reflexivity.
Qed.

Lemma timerPart_tidy (s s' : State) :
  timerPart s' = timerPart s → timersTidy s → timersTidy s'.
Proof. unfold timerPart, timersTidy. now intros [= -> -> ->]. Qed.

Lemma timerPart_updateHeader (p : Page) (s : State) :
  timerPart (updateHeader p s) = timerPart s.
Proof. unfold updateHeader. destruct (header p); [|done]. now destruct (50 <? _). Qed.

Lemma timerPart_navLinkClick (p : Page) (this : node) (h : string) (s : State) :
  timerPart (fst (navLinkClick p this h s)) = timerPart s.
Proof.
  unfold navLinkClick. cbn [fst].
  destruct (querySelector p h); [|done|done].
  now destruct (querySelector p ".nav-container").
Qed.

Lemma timerPart_runListener (p : Page) (n : node) (acc : State * bool) (l : Listener) :
  timerPart (fst (runListener p n acc l)) = timerPart (fst acc).
Proof.
  destruct l as [h|b c|b pn|b pn|]; cbn [runListener]; try done.
  - pose proof (timerPart_navLinkClick p n h (fst acc)) as H.
    now destruct (navLinkClick p n h (fst acc)).
  - unfold resumeToggle. cbn [fst]. now destruct (negb _).
Qed.

Lemma timerPart_clickAt (p : Page) (acc : State * bool) (n : node) :
  timerPart (fst (clickAt p acc n)) = timerPart (fst acc).
Proof.
  unfold clickAt. generalize (listenersOn p n). intros ls. revert acc.
  induction ls as [|l ls IH]; intros acc; [done|].
  simpl. now rewrite IH, timerPart_runListener.
Qed.

Lemma timerPart_dispatchClick (p : Page) (tgt : node) (s : State) :
  timerPart (fst (dispatchClick p tgt s)) = timerPart s.
Proof.
  unfold dispatchClick.
  assert (H : ∀ ns acc, timerPart (fst (fold_left (clickAt p) ns acc))
                        = timerPart (fst acc)).
  { induction ns as [|n ns IH]; intros acc; [done|].
    simpl. now rewrite IH, timerPart_clickAt. }
  specialize (H (path p tgt) (s, false)). cbn [fst] in H.
  destruct (mobileMenuBtn p); [|done]. destruct (mobileNavLinks p); [|done].
  cbn [fst]. unfold outsideClick. now destruct (negb _ && negb _).
Qed.

Lemma timerPart_observerCallback (entries : list Entry) :
  ∀ s, timerPart (observerCallback entries s) = timerPart s.
Proof.
  unfold observerCallback. induction entries as [|e entries IH]; intros s; [done|].
  simpl. rewrite IH. unfold reveal. now destruct (isIntersecting e).
Qed.

Lemma timersTidy_debouncedNav (s : State) :
  timersTidy s → timersTidy (debouncedNav s).
Proof.
  intros H. unfold debouncedNav.
  pose proof (tidy_debouncedNav (timers s) (navTimeout s) (headerTimeout s)
                10 (now s) H) as H'.
  now destruct (executedFunction LaterNav 10 (now s) (navTimeout s) (timers s)).
Qed.

Lemma timersTidy_debouncedHeader (s : State) :
  timersTidy s → timersTidy (debouncedHeader s).
Proof.
  intros H. unfold debouncedHeader.
  pose proof (tidy_debouncedHeader (timers s) (navTimeout s) (headerTimeout s)
                10 (now s) H) as H'.
  now destruct (executedFunction LaterHeader 10 (now s) (headerTimeout s) (timers s)).
Qed.

Lemma timersTidy_onScroll (p : Page) (s : State) :
  timersTidy s → timersTidy (onScroll p s).
Proof.
  intros H. unfold onScroll.
  assert (H' : timersTidy (updateHeader p (recordCall UpdateHeader
                 (updateActiveNavLink p (recordCall UpdateActiveNavLink s))))).
  { eapply timerPart_tidy; [apply timerPart_updateHeader|]. exact H. }
  destruct (loaded p); [|exact H'].
  now apply timersTidy_debouncedHeader, timersTidy_debouncedNav.
Qed.

Lemma timersTidy_fireTask (p : Page) (tk : Task) (s : State) :
  timersTidy s → timersTidy (fireTask p tk s).
Proof.
  intros H. destruct tk; cbn [fireTask].
  - unfold laterNav.
    exact (tidy_clearTimeout (navTimeout s) _ _ _ H).
  - unfold laterHeader.
    eapply timerPart_tidy; [apply timerPart_updateHeader|].
    exact (tidy_clearTimeout (headerTimeout s) _ _ _ H).
  - unfold typeWriter. destruct (heroSubtitle p); [|done].
    destruct (_ <? _)%nat; [|done].
    exact (tidy_typeWriter_timer _ _ _ 100 (now s) H).
Qed.

Lemma timersTidy_runDue (p : Page) (fuel : nat) (t : Z) :
  ∀ s, timersTidy s → timersTidy (runDue p fuel t s).
Proof.
  induction fuel as [|fuel IH]; intros s H; [done|].
  simpl. destruct (nextDue t (table (timers s))) as [x|]; [|done].
  apply IH. unfold fireTimer. apply timersTidy_fireTask.
  exact (tidy_clearTimeout (Some (tid x)) _ _ _ H).
Qed.

Lemma timersTidy_step (p : Page) (s : State) (te : Z * Event) :
  timersTidy s → timersTidy (step p s te).
Proof.
  intros H. unfold step.
  set (s2 := setNow _ _).
  assert (H2 : timersTidy s2) by (apply (timersTidy_runDue p _ (fst te) s H)).
  clearbody s2. destruct (snd te); cbn [dispatch fst]; try done.
  - eapply timerPart_tidy; [apply timerPart_dispatchClick|done].
  - now apply timersTidy_onScroll.
  - eapply timerPart_tidy; [apply timerPart_observerCallback|done].
  - now destruct (loaded p).
  - destruct (loaded p); [|done]. unfold touchMove. now destruct (_ || _).
  - now destruct (bool_decide _).
  - now destruct (bool_decide _).
Qed.

Lemma tidy_at_most_one (l : list (Timer Task)) (i : option nat) :
  NoDup (map tid l) → (∀ x, x ∈ l → i = Some (tid x)) → (length l <= 1)%nat.
Proof.
  intros Hnd Hall. destruct l as [|a [|b l]]; cbn [length]; [lia|lia|].
  exfalso. pose proof (Hall a ltac:(left)) as Ha.
  pose proof (Hall b ltac:(right; left)) as Hb'.
  cbn [map] in Hnd. apply NoDup_cons in Hnd as [Hnd _]. apply Hnd.
  rewrite Ha in Hb'. injection Hb' as ->. left.
Qed.

Lemma NoDup_map_filter {X Y : Type} (f : X → Y) (g : X → bool) (l : list X) :
  NoDup (map f l) → NoDup (map f (List.filter g l)).
Proof.
  induction l as [|x l IH]; intros Hnd; [constructor|].
  cbn [map] in Hnd. apply NoDup_cons in Hnd as [Hx Hnd].
  cbn [List.filter]. destruct (g x); [|now apply IH].
  cbn [map]. apply NoDup_cons. split; [|now apply IH].
  intros Hin. apply Hx. apply list_elem_of_fmap in Hin as (y & -> & Hy).
  apply list_elem_of_In, filter_In in Hy as [Hy _].
  apply list_elem_of_fmap. exists y. split; [done|]. now apply list_elem_of_In.
Qed.

(** X13: the debounced wrappers never pile up timers.  From a state whose
    timer table is in order (as it is when the page has just loaded) no
    sequence of events leads to a state with two calls of
    [updateActiveNavLink] pending, or two of [updateHeader]: each wrapper
    has at most one [later] waiting, the one its [timeout] names. *)
Theorem X13_one_pending_call_each (p : Page) (s : State) (evs : list (Z * Event)) :
  timersTidy s →
  timersTidy (run p evs s)
  ∧ (length (List.filter isLaterNav (table (timers (run p evs s)))) <= 1)%nat
  ∧ (length (List.filter isLaterHeader (table (timers (run p evs s)))) <= 1)%nat.
Proof.
  intros H.
  assert (Hrun : timersTidy (run p evs s)).
  { unfold run. revert s H. induction evs as [|te evs IH]; intros s H; [done|].
    simpl. apply IH. now apply timersTidy_step. }
  split; [exact Hrun|].
  destruct Hrun as (Hnd & _ & Hn & Hh). split.
  - apply (tidy_at_most_one _ (navTimeout (run p evs s))).
    + now apply NoDup_map_filter.
    + intros x Hx. apply list_elem_of_In, filter_In in Hx as [Hx Ht].
      apply Hn; [now apply list_elem_of_In|].
      unfold isLaterNav in Ht. now destruct (task x).
  - apply (tidy_at_most_one _ (headerTimeout (run p evs s))).
    + now apply NoDup_map_filter.
    + intros x Hx. apply list_elem_of_In, filter_In in Hx as [Hx Ht].
      apply Hh; [now apply list_elem_of_In|].
      unfold isLaterHeader in Ht. now destruct (task x).
Qed.

Lemma X13_one_pending_call_each_witness :
  (length (List.filter isLaterNav
             (table (timers (run aboutPage threeScrolls (sampleState 0)))))
   <= 1)%nat.
Proof.
  apply (X13_one_pending_call_each aboutPage (sampleState 0) threeScrolls).
  repeat split.
  - constructor.
  - intros x Hx. now apply elem_of_nil in Hx.
  - intros x Hx. now apply elem_of_nil in Hx.
  - intros x Hx. now apply elem_of_nil in Hx.
Defined.

(** ** The menu button follows the menu panel *)

Lemma onScroll_other (p : Page) (s : State) (m : node) :
  m ∉ navLinks p → classes (onScroll p s) m = classes s m.
Proof.
  intros Hm. rewrite classes_onScroll.
  now rewrite updateActiveNavLink_other.
Qed.

Section MenuSync.
Variable p : Page.
Variables b pn : node.
Hypothesis Hb : mobileMenuBtn p = Some b.
Hypothesis Hpn : mobileNavLinks p = Some pn.
Hypothesis Hbnav : b ∉ navLinks p.
Hypothesis Hpnav : pn ∉ navLinks p.

Lemma navLinkClick_off_links (this : node) (h : string) (s : State) (m : node) :
  m ∉ navLinks p → this ∈ navLinks p →
  classes (fst (navLinkClick p this h s)) m = classes s m.
Proof.
  intros Hm Hthis. unfold navLinkClick. cbn [fst].
  destruct (querySelector p h); [|done|done].
  destruct (querySelector p ".nav-container"); [|done|done].
  cbn [classes setClasses scrollTo].
  rewrite classAdd_other by (intros ->; tauto).
  now apply clearActive_other.
Qed.

Lemma sync_runListener (n : node) (acc : State * bool) (l : Listener) :
  l ∈ listenersOn p n →
  menuInSync (fst acc) b pn → menuInSync (fst (runListener p n acc l)) b pn.
Proof.
  intros Hl Hsync. unfold menuInSync in *.
  destruct l as [h|b' c|b' pn'|b' pn'|]; cbn [runListener].
  - apply listenersOn_nav in Hl as [Hn _].
    pose proof (navLinkClick_off_links n h (fst acc) b Hbnav Hn) as H1.
    pose proof (navLinkClick_off_links n h (fst acc) pn Hpnav Hn) as H2.
    destruct (navLinkClick p n h (fst acc)) as [s' d']. cbn [fst] in *.
    now rewrite H1, H2.
  - unfold resumeToggle. cbn [fst]. now destruct (negb _).
  - apply listenersOn_toggle in Hl as (Hb' & Hpn' & _).
    assert (b' = b) as -> by congruence. assert (pn' = pn) as -> by congruence.
    cbn [fst]. unfold menuToggle. cbn [classes setClasses].
    destruct (decide (b = pn)) as [->|Hne]; [done|].
    rewrite (classToggle_other b pn) by congruence.
    rewrite (elem_classToggle b b), (classToggle_other pn b) by congruence.
    rewrite (elem_classToggle pn pn). tauto.
  - apply listenersOn_close in Hl as (Hb' & Hpn' & _).
    assert (b' = b) as -> by congruence. assert (pn' = pn) as -> by congruence.
    cbn [fst]. unfold menuClose. cbn [classes setClasses].
    rewrite !elem_classRemove. tauto.
  - done.
Qed.

Lemma sync_clickAt (acc : State * bool) (n : node) :
  menuInSync (fst acc) b pn → menuInSync (fst (clickAt p acc n)) b pn.
Proof.
  unfold clickAt.
  assert (H : ∀ ls acc0, (∀ l, l ∈ ls → l ∈ listenersOn p n) →
    menuInSync (fst acc0) b pn →
    menuInSync (fst (fold_left (runListener p n) ls acc0)) b pn).
  { induction ls as [|l ls IH]; intros acc0 Hls H0; [done|].
    simpl. apply IH; [intros l' Hl'; apply Hls; now right|].
    apply sync_runListener; [apply Hls; left | done]. }
  apply H. auto.
Qed.

Lemma sync_dispatchClick (tgt : node) (s : State) :
  menuInSync s b pn → menuInSync (fst (dispatchClick p tgt s)) b pn.
Proof.
  intros Hs. unfold dispatchClick. rewrite Hb, Hpn. cbn [fst].
  assert (H : ∀ ns acc, menuInSync (fst acc) b pn →
    menuInSync (fst (fold_left (clickAt p) ns acc)) b pn).
  { induction ns as [|n ns IH]; intros acc H0; [done|].
    simpl. now apply IH, sync_clickAt. }
  specialize (H (path p tgt) (s, false) Hs).
  unfold outsideClick. destruct (negb _ && negb _); [|done].
  unfold menuInSync, menuClose. cbn [classes setClasses].
  rewrite !elem_classRemove. tauto.
Qed.

Lemma sync_frame (s s' : State) :
  classes s' b = classes s b → classes s' pn = classes s pn →
  menuInSync s b pn → menuInSync s' b pn.
Proof. unfold menuInSync. now intros -> ->. Qed.

Lemma sync_step (s : State) (te : Z * Event) :
  menuInSync s b pn → menuInSync (step p s te) b pn.
Proof.
  intros Hs. unfold step.
  set (s2 := setNow _ _).
  assert (H2 : menuInSync s2 b pn).
  { apply (sync_frame s); [| |done]; subst s2; cbn [classes setNow];
      now apply runDue_other. }
  clearbody s2. destruct (snd te); cbn [dispatch fst]; try done.
  - now apply sync_dispatchClick.
  - apply (sync_frame s2); [| |done]; now rewrite onScroll_other.
  - unfold menuInSync. rewrite !elem_observerCallback.
    unfold menuInSync in H2.
    split; (intros [H|[[H|H] _]]; [left; tauto | discriminate | discriminate]).
  - now destruct (loaded p).
  - destruct (loaded p); [|done]. unfold touchMove. now destruct (_ || _).
  - now destruct (bool_decide _).
  - now destruct (bool_decide _).
Qed.

(** X14: the menu button always shows the state of the menu panel.  On a
    page whose button and panel are not themselves nav links, if both carry
    [active] or neither does, the same holds after any sequence of events:
    whatever opens or closes the panel does the same to the button. *)
Theorem X14_menu_button_in_sync (s : State) (evs : list (Z * Event)) :
  menuInSync s b pn → menuInSync (run p evs s) b pn.
Proof.
  unfold run. revert s. induction evs as [|te evs IH]; intros s Hs; [done|].
  simpl. now apply IH, sync_step.
Qed.
End MenuSync.

Lemma X14_menu_button_in_sync_witness :
  menuInSync (run menuPage [(0, Click 6%nat); (40, Scroll 300); (90, Click 1%nat)]
                (sampleState 0)) 6%nat 5%nat.
Proof.
  apply (X14_menu_button_in_sync menuPage 6%nat 5%nat eq_refl eq_refl).
  - apply (bool_decide_unpack _). now vm_compute.
  - apply (bool_decide_unpack _). now vm_compute.
  - unfold menuInSync. now vm_compute.
Defined.

(** ** A click on a link of the menu *)

Section MenuLinkClick.
Variable p : Page.
Variables b pn : node.
Hypothesis Hb : mobileMenuBtn p = Some b.
Hypothesis Hpn : mobileNavLinks p = Some pn.

Lemma calm_runListener (s : State) (n : node) (acc : State * bool) (l : Listener) :
  l ∈ listenersOn p n → calm l →
  calmSince b pn s acc →
  calmSince b pn s (runListener p n acc l)
  ∧ snd (runListener p n acc l) = snd acc.
Proof.
  intros Hl Hcalm (Hsr & Hun & Hsub & Hfr).
  destruct l as [h|b' c|b' pn'|b' pn'|]; cbn [runListener]; try done.
  - split; [|done]. unfold calmSince, resumeToggle. cbn [fst].
    destruct (negb _); cbn; auto.
  - apply listenersOn_close in Hl as (Hb' & Hpn' & _).
    assert (b' = b) as -> by congruence. assert (pn' = pn) as -> by congruence.
    split; [|done]. unfold calmSince, menuClose. cbn [fst].
    cbn [scrollRequests uncaught classes setClasses].
    repeat split; try done.
    + intros m d. rewrite !elem_classRemove. intros [[H _] _]. now apply Hsub.
    + intros m Hmb Hmpn. rewrite !classRemove_other by done. now apply Hfr.
Qed.

Lemma calm_listeners (s : State) (n : node) (ls : list Listener) :
  (∀ l, l ∈ ls → l ∈ listenersOn p n ∧ calm l) →
  ∀ acc, calmSince b pn s acc →
    calmSince b pn s (fold_left (runListener p n) ls acc)
    ∧ snd (fold_left (runListener p n) ls acc) = snd acc.
Proof.
  induction ls as [|l ls IH]; intros Hls acc Hacc; [done|].
  simpl. destruct (Hls l ltac:(left)) as [Hin Hc].
  destruct (calm_runListener s n acc l Hin Hc Hacc) as [H1 H2].
  destruct (IH (fun l' Hl' => Hls l' ltac:(now right)) _ H1) as [H3 H4].
  split; [done | congruence].
Qed.

(** On an element that is neither an in-page nav link nor the menu button
    every listener is calm. *)
Lemma calm_listenersOn (n : node) (l : Listener) :
  ¬ inPage p n → n ≠ b → l ∈ listenersOn p n → calm l.
Proof.
  intros Hn Hnb Hl. destruct l as [h|b' c|b' pn'|b' pn'|]; try done.
  - destruct Hn. eapply listenersOn_nav, Hl.
  - apply listenersOn_toggle in Hl as (Hb' & _ & ->). congruence.
Qed.

Lemma calm_path (s : State) (ns : list node) :
  (∀ n, n ∈ ns → ¬ inPage p n ∧ n ≠ b) →
  ∀ acc, calmSince b pn s acc →
    calmSince b pn s (fold_left (clickAt p) ns acc)
    ∧ snd (fold_left (clickAt p) ns acc) = snd acc.
Proof.
  induction ns as [|n ns IH]; intros Hns acc Hacc; [done|].
  simpl. destruct (Hns n ltac:(left)) as [Hn Hnb].
  destruct (calm_listeners s n (listenersOn p n)
              (fun l Hl => conj Hl (calm_listenersOn n l Hn Hnb Hl)) acc Hacc)
    as [H1 H2].
  destruct (IH (fun n' Hn' => Hns n' ltac:(now right)) _ H1) as [H3 H4].
  split; [done|]. unfold clickAt in *. congruence.
Qed.

(** The listeners of an in-page nav link other than the menu button: its
    click listener first, then calm ones. *)
Lemma listenersOn_link (l : node) (h : string) :
  l ∈ navLinks p → inPageHref p l = Some h → l ≠ b →
  ∃ tail, listenersOn p l = NavLinkClick h :: tail
          ∧ ∀ x, x ∈ tail → x ∈ listenersOn p l ∧ calm x.
Proof.
  intros Hl Hh Hlb. unfold listenersOn. rewrite Hb, Hpn, Hh.
  rewrite (bool_decide_eq_true_2 (l ∈ navLinks p)) by done.
  rewrite (bool_decide_eq_false_2 (l = b)) by done.
  cbn [app]. eexists. split; [reflexivity|].
  intros x Hx. split; [now right|].
  destruct (resumeToggleBtn p) as [rb|]; [destruct (resumeContent p) as [rc|]|];
    try destruct (bool_decide (l = rb));
    destruct (bool_decide (l ∈ menuAnchors p));
    destruct (bool_decide (l ∈ projectLinks p)); cbn [app] in Hx;
    repeat (apply elem_of_cons in Hx as [->|Hx]; [done|]);
    now apply elem_of_nil in Hx.
Qed.

(** X15: a click on an in-page link of the mobile menu does it all.  When
    the link's fragment is a plain identifier carried by an element, the nav
    container exists, and the click reaches neither the menu button nor
    another in-page link, then the default is suppressed, one scroll is
    requested, to the target's [offsetTop] minus the container's height, no
    exception escapes, the clicked link is the only active nav link, and the
    menu is closed. *)
Theorem X15_menu_link_click (l : node) (ident : string) (container : node)
    (rest : list node) (s : State) :
  b ≠ pn → pn ∉ navLinks p →
  l ∈ navLinks p → l ∈ menuAnchors p →
  inPageHref p l = Some (String "#" ident) → plainIdent ident →
  (∃ n, n ∈ elements p ∧ idAttr p n = Some ident) →
  complexQuery p ".nav-container" = QFound container →
  path p l = l :: rest →
  l ≠ b → (∀ n, n ∈ rest → ¬ inPage p n ∧ n ≠ b) →
  ∃ targetSection,
    List.find (hasId p ident) (elements p) = Some targetSection
    ∧ snd (dispatchClick p l s) = true
    ∧ scrollRequests (fst (dispatchClick p l s))
      = (scrollRequests s
         ++ [offsetTop (view s) targetSection - offsetHeight (view s) container])%list
    ∧ uncaught (fst (dispatchClick p l s)) = uncaught s
    ∧ isActive (fst (dispatchClick p l s)) l = true
    ∧ (∀ l', l' ∈ navLinks p → l' ≠ l →
         isActive (fst (dispatchClick p l s)) l' = false)
    ∧ menuOpen (fst (dispatchClick p l s)) pn = false.
Proof.
  intros Hne Hpnav Hl Hanchor Hh Hplain Hel Hc Hpath Hlb Hrest.
  destruct (navLinkClick_resolved p l ident s container Hplain Hel Hc)
    as (tg & Hfind & _ & Hd1 & Hact1 & Hsr1 & Hun1).
  exists tg. split; [exact Hfind|].
  destruct (listenersOn_link l (String "#" ident) Hl Hh Hlb) as (tail & Hls & Htail).
  set (s1 := fst (navLinkClick p l (String "#" ident) s)) in *.
  assert (Hfold : fold_left (clickAt p) (path p l) (s, false)
                  = fold_left (clickAt p) rest
                      (fold_left (runListener p l) tail (s1, true))).
  { rewrite Hpath. cbn [fold_left]. unfold clickAt at 2. rewrite Hls.
    cbn [fold_left runListener fst snd].
    subst s1. destruct (navLinkClick p l (String "#" ident) s) as [s' d'].
    cbn [fst snd] in *. now rewrite Hd1. }
  assert (H0 : calmSince b pn s1 (s1, true)) by (repeat split; done).
  destruct (calm_listeners s1 l tail Htail _ H0) as [H1 Hf1].
  destruct (calm_path s1 rest Hrest _ H1) as [(Hsr & Hun & Hsub & Hfr) Hf2].
  assert (Hothers : ∀ l', l' ∈ navLinks p → l' ≠ l → "active" ∉ classes s1 l').
  { intros l' Hl' Hne'. subst s1. unfold navLinkClick. cbn [fst].
    rewrite (querySelector_plain p ident Hplain), Hfind,
      querySelector_navContainer, Hc.
    cbn [classes setClasses scrollTo].
    rewrite elem_classAdd, elem_clearActive. tauto. }
  assert (Hlpn : l ≠ pn) by (intros ->; tauto).
  pose proof (click_link p b pn Hb Hpn Hne Hpnav l l s Hanchor
                ltac:(rewrite Hpath; left)
                ltac:(rewrite Hpath; intros Hin;
                      apply elem_of_cons in Hin as [->|Hin];
                      [done | now destruct (Hrest b Hin)])) as Hclosed.
  unfold dispatchClick in *. rewrite Hb, Hpn in *. rewrite Hfold in *.
  cbn [fst snd] in *.
  set (acc := fold_left (clickAt p) rest
                (fold_left (runListener p l) tail (s1, true))) in *.
  split; [congruence|].
  unfold outsideClick in *.
  destruct (negb (contains p b l) && negb (contains p pn l)).
  - unfold menuClose in *. cbn [scrollRequests uncaught classes setClasses] in *.
    split; [congruence|]. split; [congruence|]. split; [|split].
    + apply isActive_true. cbn [classes setClasses].
      rewrite !classRemove_other by done. rewrite Hfr by done.
      now apply isActive_true.
    + intros l' Hl' Hne'. apply isActive_false. cbn [classes setClasses].
      rewrite !elem_classRemove. intros [[H _] _].
      now apply (Hothers l' Hl' Hne'), Hsub.
    + now apply menuOpen_false.
  - split; [congruence|]. split; [congruence|]. split; [|split].
    + apply isActive_true. rewrite Hfr by done. now apply isActive_true.
    + intros l' Hl' Hne'. apply isActive_false. intros H.
      now apply (Hothers l' Hl' Hne'), Hsub.
    + now apply menuOpen_false.
Qed.
End MenuLinkClick.

Lemma X15_menu_link_click_witness :
  ∃ targetSection,
    List.find (hasId menuPage "about") (elements menuPage) = Some targetSection
    ∧ snd (dispatchClick menuPage 1%nat (sampleState 0)) = true
    ∧ scrollRequests (fst (dispatchClick menuPage 1%nat (sampleState 0)))
      = (scrollRequests (sampleState 0)
         ++ [offsetTop (view (sampleState 0)) targetSection
             - offsetHeight (view (sampleState 0)) 0%nat])%list
    ∧ uncaught (fst (dispatchClick menuPage 1%nat (sampleState 0)))
      = uncaught (sampleState 0)
    ∧ isActive (fst (dispatchClick menuPage 1%nat (sampleState 0))) 1%nat = true
    ∧ (∀ l', l' ∈ navLinks menuPage → l' ≠ 1%nat →
         isActive (fst (dispatchClick menuPage 1%nat (sampleState 0))) l' = false)
    ∧ menuOpen (fst (dispatchClick menuPage 1%nat (sampleState 0))) 5%nat = false.
Proof.
  apply (X15_menu_link_click menuPage 6%nat 5%nat eq_refl eq_refl 1%nat "about"
           0%nat [5; 0]%nat (sampleState 0)).
  - discriminate.
  - apply (bool_decide_unpack _). now vm_compute.
  - apply (bool_decide_unpack _). now vm_compute.
  - apply (bool_decide_unpack _). now vm_compute.
  - reflexivity.
  - reflexivity.
  - exists 10%nat. split; [apply (bool_decide_unpack _); now vm_compute | reflexivity].
  - reflexivity.
  - reflexivity.
  - discriminate.
  - intros n Hn. apply elem_of_cons in Hn as [->|Hn];
      [|apply list_elem_of_singleton in Hn as ->];
      (split; [intros [_ [h Hh]]; now vm_compute in Hh | discriminate]).
Defined.

(** ** Project cards *)

(** X16: hovering a project card leaves nothing behind.  After the pointer
    has entered and left, the card's inline transform is the identity
    ([translateY(0) scale(1)]) whatever it was before, and no other style,
    no other element and no class list has changed.  Elements that are not
    project cards ignore both events. *)
Theorem X16_card_hover_round_trip (p : Page) (card : node) (s : State) :
  (card ∈ projectCards p →
   style (fst (dispatch p (MouseLeave card) (fst (dispatch p (MouseEnter card) s))))
     card "transform" = "translateY(0) scale(1)"
   ∧ style (fst (dispatch p (MouseEnter card) s)) card "transform"
     = "translateY(-8px) scale(1.02)")
  ∧ (∀ n q, n ≠ card ∨ q ≠ "transform" →
       style (fst (dispatch p (MouseLeave card)
                     (fst (dispatch p (MouseEnter card) s)))) n q = style s n q)
  ∧ classes (fst (dispatch p (MouseLeave card) (fst (dispatch p (MouseEnter card) s))))
    = classes s
  ∧ (card ∉ projectCards p →
     fst (dispatch p (MouseEnter card) s) = s
     ∧ fst (dispatch p (MouseLeave card) s) = s).
Proof.
  cbn [dispatch fst].
  destruct (bool_decide_reflect (card ∈ projectCards p)) as [Hin|Hout].
  - split; [|split; [|split]]; try done.
    + intros _. unfold cardLeave, cardEnter. cbn [style setStyle].
      now rewrite !styleSet_same.
    + intros n q Hnq. unfold cardLeave, cardEnter. cbn [style setStyle].
      now rewrite !styleSet_other.
  - split; [|split; [|split]]; done.
Qed.

Lemma X16_card_hover_round_trip_witness :
  style (fst (dispatch cardPage (MouseLeave 30%nat)
                (fst (dispatch cardPage (MouseEnter 30%nat) idle))))
    30%nat "transform" = "translateY(0) scale(1)"
  ∧ style (fst (dispatch cardPage (MouseEnter 30%nat) idle)) 30%nat "transform"
    = "translateY(-8px) scale(1.02)".
Proof.
  apply (proj1 (X16_card_hover_round_trip cardPage 30%nat idle)).
  apply list_elem_of_singleton. reflexivity.
Defined.

(** ** Touch handling, across events *)

Lemma touchStartY_updateHeader (p : Page) (s : State) :
  touchStartY (updateHeader p s) = touchStartY s.
Proof. unfold updateHeader. destruct (header p); [|done]. now destruct (50 <? _). Qed.

Lemma touchStartY_fireTask (p : Page) (tk : Task) (s : State) :
  touchStartY (fireTask p tk s) = touchStartY s.
Proof.
  destruct tk; cbn [fireTask].
  - done.
  - unfold laterHeader. now rewrite touchStartY_updateHeader.
  - unfold typeWriter. destruct (heroSubtitle p); [|done].
    now destruct (_ <? _)%nat.
Qed.

Lemma touchStartY_runDue (p : Page) (fuel : nat) (t : Z) :
  ∀ s, touchStartY (runDue p fuel t s) = touchStartY s.
Proof.
  induction fuel as [|fuel IH]; intros s; [done|].
  simpl. destruct (nextDue t (table (timers s))) as [x|]; [|done].
  rewrite IH. unfold fireTimer. now rewrite touchStartY_fireTask.
Qed.

Lemma touchStartY_navLinkClick (p : Page) (this : node) (h : string) (s : State) :
  touchStartY (fst (navLinkClick p this h s)) = touchStartY s.
Proof.
  unfold navLinkClick. cbn [fst].
  destruct (querySelector p h); [|done|done].
  now destruct (querySelector p ".nav-container").
Qed.

Lemma touchStartY_clickAt (p : Page) (acc : State * bool) (n : node) :
  touchStartY (fst (clickAt p acc n)) = touchStartY (fst acc).
Proof.
  unfold clickAt. generalize (listenersOn p n). intros ls. revert acc.
  induction ls as [|l ls IH]; intros acc; [done|].
  simpl. rewrite IH.
  destruct l as [h|b c|b pn|b pn|]; cbn [runListener]; try done.
  - pose proof (touchStartY_navLinkClick p n h (fst acc)) as H.
    now destruct (navLinkClick p n h (fst acc)).
  - unfold resumeToggle. cbn [fst]. now destruct (negb _).
Qed.

Lemma touchStartY_dispatchClick (p : Page) (tgt : node) (s : State) :
  touchStartY (fst (dispatchClick p tgt s)) = touchStartY s.
Proof.
  unfold dispatchClick.
  assert (H : ∀ ns acc, touchStartY (fst (fold_left (clickAt p) ns acc))
                        = touchStartY (fst acc)).
  { induction ns as [|n ns IH]; intros acc; [done|].
    simpl. now rewrite IH, touchStartY_clickAt. }
  specialize (H (path p tgt) (s, false)). cbn [fst] in H.
  destruct (mobileMenuBtn p); [|done]. destruct (mobileNavLinks p); [|done].
  cbn [fst]. unfold outsideClick. now destruct (negb _ && negb _).
Qed.

Lemma touchStartY_step (p : Page) (s : State) (te : Z * Event) :
  touchStartY (step p s te)
  = match snd te with
    | TouchStart c => if loaded p then c else touchStartY s
    | _ => touchStartY s
    end.
Proof.
  unfold step.
  set (s2 := setNow _ _).
  assert (H2 : touchStartY s2 = touchStartY s).
  { subst s2. cbn [touchStartY setNow]. apply touchStartY_runDue. }
  clearbody s2. rewrite <- H2. destruct (snd te); cbn [dispatch fst]; try done.
  - apply touchStartY_dispatchClick.
  - unfold onScroll. destruct (loaded p).
    + change (touchStartY (debouncedHeader ?x)) with (touchStartY x).
      change (touchStartY (debouncedNav ?x)) with (touchStartY x).
      now rewrite touchStartY_updateHeader.
    + now rewrite touchStartY_updateHeader.
  - unfold observerCallback. generalize s2.
    induction entries as [|en entries IH]; intros s0; [done|].
    simpl. rewrite IH. unfold reveal. now destruct (isIntersecting en).
  - now destruct (loaded p).
  - destruct (loaded p); [|done]. unfold touchMove. now destruct (_ || _).
  - now destruct (bool_decide _).
  - now destruct (bool_decide _).
Qed.

(** X17: a drag is measured from where the finger went down.  On a page
    with a [.hero] element, where the touch listeners are registered,
    [touchStartY] is through any sequence of events the [clientY] of the
    latest [touchstart]: touch moves do not update it (so [deltaY] is the
    distance from the start of the touch, not from the previous move), and
    no other listener or timer writes it.  On a page without one nothing
    ever writes it. *)
Theorem X17_drag_measured_from_touchstart (p : Page) (evs : list (Z * Event))
    (s : State) :
  touchStartY (run p evs s)
  = if loaded p then lastTouchStart (touchStartY s) evs else touchStartY s.
Proof.
  unfold run, lastTouchStart. revert s.
  induction evs as [|te evs IH]; intros s; [now destruct (loaded p)|].
  simpl. rewrite IH, touchStartY_step.
  destruct (loaded p); [|now destruct (snd te)].
  now destruct (snd te).
Qed.
